(** * Avatar service: session registry and token issuance

    A shallow embedding of [app/backend/avatar_service.py] (class
    [AvatarService]) and the properties of its request handlers.

    Python values are modelled as the interpreter has them: a [str] is a
    sequence of Unicode code points, a JSON document is what [json.loads]
    returns, a [dict] is a finite map, and an exception raised inside a
    handler's [try] block is a value of type [exception] that the handler's
    [except Exception] clause turns into a 500 response. *)

From Stdlib Require Import ZArith NArith String Ascii SpecFloat.
From stdpp Require Import gmap list fin_maps.

Local Open Scope Z_scope.
Set Warnings "-register-all,-clear-no-such-hyp".

(** ** Python strings *)

(** A Python [str] is a sequence of code points. *)
Definition char := N.
Abbreviation str := (list N).

(** A string literal of the source; all of them are ASCII. *)
Definition lit (s : string) : str :=
  map N_of_ascii (list_ascii_of_string s).

(** [str.isspace] on one character: the code points CPython's
    [_PyUnicode_IsWhitespace] accepts. *)
Definition isspace (c : char) : bool :=
  ((9 <=? c) && (c <=? 13) || (28 <=? c) && (c <=? 32)
   || (c =? 133) || (c =? 160) || (c =? 5760)
   || (8192 <=? c) && (c <=? 8202)
   || (c =? 8232) || (c =? 8233) || (c =? 8239) || (c =? 8287)
   || (c =? 12288))%N.

(** [s.lstrip()] and [s.rstrip()] *)
Fixpoint lstrip (s : str) : str :=
  match s with
  | c :: r => if isspace c then lstrip r else s
  | [] => []
  end.

Definition rstrip (s : str) : str := rev (lstrip (rev s)).

(** [s.strip()] with no argument: leading and trailing whitespace removed. *)
Definition strip (s : str) : str := rstrip (lstrip s).

(** ** JSON documents, as [json.loads] builds them *)

(** A Python [float] is an IEEE 754 binary64 value; [json.loads] also accepts
    [NaN] and [Infinity]. *)
Abbreviation float := spec_float.

Inductive json : Type :=
  | JNull
  | JBool (b : bool)
  | JInt (n : Z)
  | JFloat (f : float)
  | JStr (s : str)
  | JArr (l : list json)
  | JObj (d : gmap str json).

(** Truth value of an object, as [if x] and [not x] test it. *)
Definition truthy (v : json) : bool :=
  match v with
  | JNull => false
  | JBool b => b
  | JInt n => negb (n =? 0)
  | JFloat f => match f with S754_zero _ => false | _ => true end
  | JStr s => match s with [] => false | _ => true end
  | JArr l => match l with [] => false | _ => true end
  | JObj d => negb (bool_decide (dom d = ∅))
  end.

(** [type(v).__name__], as it appears in the interpreter's error messages. *)
Definition type_name (v : json) : str :=
  match v with
  | JNull => lit "NoneType"
  | JBool _ => lit "bool"
  | JInt _ => lit "int"
  | JFloat _ => lit "float"
  | JStr _ => lit "str"
  | JArr _ => lit "list"
  | JObj _ => lit "dict"
  end.

(** ** Exceptions *)

(** The exceptions a handler's [try] block can see.  [KeyError] carries the
    missing key; the other constructors carry the message. *)
Inductive exception : Type :=
  | AttributeError (msg : str)
  | TypeError (msg : str)
  | KeyError (key : json)
  | OverflowError (msg : str)
  | OtherError (msg : str).

(** [repr] of a dictionary key, which is what [str] of a [KeyError] shows.
    It is spelled out for [str] keys without quotes, backslashes or
    unprintable characters, which is what a [str(uuid)] is; of another key
    only the type is kept.  The subscripts of the handlers come after a
    membership test and raise no [KeyError] (see
    [try_avatar_speak_no_KeyError], [try_avatar_disconnect_no_KeyError]). *)
Definition repr (key : json) : str :=
  match key with
  | JStr s => lit "'" ++ s ++ lit "'"
  | _ => type_name key
  end.

(** [str(e)] *)
Definition str_exc (e : exception) : str :=
  match e with
  | AttributeError m | TypeError m | OverflowError m | OtherError m => m
  | KeyError k => repr k
  end.

(** [v.attr] on a value whose type has no such attribute. *)
Definition no_attribute (v : json) (attr : string) : exception :=
  AttributeError
    (lit "'" ++ type_name v ++ lit "' object has no attribute '" ++ lit attr ++ lit "'").

(** Hashing a [list] or a [dict]. *)
Definition unhashable (v : json) : exception :=
  TypeError (lit "unhashable type: '" ++ type_name v ++ lit "'").

(** [dict.get(d, key, default)] *)
Definition dict_get (d : gmap str json) (key : string) (default : json) : json :=
  match d !! lit key with
  | Some v => v
  | None => default
  end.

(** [data.get(key, default)]: defined on a [dict] only. *)
Definition get (data : json) (key : string) (default : json) : exception + json :=
  match data with
  | JObj d => inr (dict_get d key default)
  | _ => inl (no_attribute data "get")
  end.

(** [text.strip()]: defined on a [str] only. *)
Definition str_strip (text : json) : exception + str :=
  match text with
  | JStr s => inr (strip s)
  | _ => inl (no_attribute text "strip")
  end.

(** ** Time *)

(** A naive UTC [datetime], in microseconds since the epoch. *)
Abbreviation datetime := Z (only parsing).

(** [datetime.min] and [datetime.max]: 0001-01-01 00:00:00 and 9999-12-31
    23:59:59.999999.  Every [datetime], a reading of the clock among them,
    lies between the two. *)
Definition datetime_min : Z := -62135596800000000.
Definition datetime_max : Z := 253402300799999999.

(** [timedelta(hours=h)] in microseconds. *)
Definition timedelta_hours (h : Z) : Z := h * 3600 * 1000000.

(** [t + delta]: the sum, or [OverflowError] when it is no [datetime]. *)
Definition datetime_add (t : datetime) (delta : Z) : exception + datetime :=
  if bool_decide (datetime_min ≤ t + delta ≤ datetime_max)
  then inr (t + delta)
  else inl (OverflowError (lit "date value out of range")).

(** [calendar.timegm(t.utctimetuple())]: whole seconds, the microseconds
    dropped. *)
Definition timegm (t : datetime) : Z := t / 1000000.

(** ** UUIDs *)

(** [uuid.uuid4().int]: 16 random bytes read as a big-endian integer, with
    the variant and version bits forced, as [UUID.__init__] does for
    [version=4]. *)
Definition uuid4 (rnd : N) : N :=
  let int := (rnd mod 2 ^ 128)%N in
  let int := N.ldiff int (N.shiftl 0xc000 48) in
  let int := N.lor int (N.shiftl 0x8000 48) in
  let int := N.ldiff int (N.shiftl 0xf000 64) in
  N.lor int (N.shiftl 4 76).

Definition hexdigit (d : N) : char :=
  (if d <? 10 then 48 + d else 87 + d)%N.

(** ['%0<width>x' % n], the low [width] hexadecimal digits. *)
Fixpoint hex (width : nat) (n : N) : str :=
  match width with
  | O => []
  | S w => hex w (n / 16)%N ++ [hexdigit (n mod 16)%N]
  end.

(** [str(u)] for a UUID with integer value [int]: the 8-4-4-4-12 form. *)
Definition str_uuid (int : N) : str :=
  let h := hex 32 int in
  take 8 h ++ lit "-" ++ take 4 (drop 8 h) ++ lit "-" ++ take 4 (drop 12 h)
    ++ lit "-" ++ take 4 (drop 16 h) ++ lit "-" ++ drop 20 h.

(** ** The service object *)

(** A value stored in a dictionary of the service: a JSON value taken from a
    request, or a [datetime]. *)
Inductive pyval : Type :=
  | PJson (j : json)
  | PDatetime (t : datetime).

(** [self]: the attributes [__init__] sets.  ([self.credentials] is set only
    without a speech key and is read nowhere.) *)
Record AvatarService : Type := {
  speech_key : option str;
  speech_region : str;
  speech_private_endpoint : option str;
  active_connections : gmap str (gmap str pyval)
}.

(** [AvatarService()], given [os.environ]. *)
Definition AvatarService_init (environ : gmap str str) : AvatarService := {|
  speech_key := environ !! lit "SPEECH_KEY";
  speech_region :=
    match environ !! lit "SPEECH_REGION" with
    | Some r => r
    | None => lit "westus2"
    end;
  speech_private_endpoint := environ !! lit "SPEECH_PRIVATE_ENDPOINT";
  active_connections := ∅
|}.

Definition set_active_connections
    (f : gmap str (gmap str pyval) → gmap str (gmap str pyval))
    (self : AvatarService) : AvatarService := {|
  speech_key := speech_key self;
  speech_region := speech_region self;
  speech_private_endpoint := speech_private_endpoint self;
  active_connections := f (active_connections self)
|}.

(** ** Requests and responses *)

(** A request, as far as the handlers look at it: the outcome of
    [await request.json()]. *)
Record Request : Type := { request_json : exception + json }.

Record Response : Type := { status : Z; body : json }.

(** [web.json_response(data, status=status)]; the default status is 200. *)
Definition json_response (data : json) (status : Z) : Response :=
  {| status := status; body := data |}.

(** ** Handler code: state and exceptions *)

(** A block of handler code runs on [self] and either yields a value or
    raises; what it did to [self] before raising stays done. *)
Definition M (A : Type) : Type :=
  AvatarService → (exception + A) * AvatarService.

Definition ret {A} (a : A) : M A := λ self, (inr a, self).

Definition bind {A B} (m : M A) (k : A → M B) : M B := λ self,
  match m self with
  | (inr a, self') => k a self'
  | (inl e, self') => (inl e, self')
  end.

(** A call that may raise and does not touch [self]. *)
Definition lift {A} (r : exception + A) : M A := λ self, (r, self).

(** Read an attribute of [self]. *)
Definition gets {A} (f : AvatarService → A) : M A := λ self, (inr (f self), self).

(** Update [self.active_connections] in place. *)
Definition modify (f : gmap str (gmap str pyval) → gmap str (gmap str pyval)) : M unit :=
  λ self, (inr tt, set_active_connections f self).

Notation "'let*' x ':=' m 'in' k" := (bind m (λ x, k))
  (at level 10, x name, m at level 100, k at level 200).

(** A handler always answers: its [try] covers the whole body and the
    [except] clause returns a response. *)
Definition answer (m : M Response) (handler : exception → Response)
    (self : AvatarService) : AvatarService * Response :=
  match m self with
  | (inr r, self') => (self', r)
  | (inl e, self') => (self', handler e)
  end.

(** [web.json_response({'error': str(e)}, status=500)] *)
Definition error_500 (e : exception) : Response :=
  json_response (JObj {[ lit "error" := JStr (str_exc e) ]}) 500.

(** ** Dictionary operations on the registry *)

(** [key in self.active_connections].  The key is hashed first, which a
    [list] or a [dict] refuses; every key of the registry is a [str], and no
    [None], [bool], [int] or [float] equals a [str]. *)
Definition contains (reg : gmap str (gmap str pyval)) (key : json) : exception + bool :=
  match key with
  | JStr s => inr (bool_decide (is_Some (reg !! s)))
  | JArr _ | JObj _ => inl (unhashable key)
  | _ => inr false
  end.

(** [self.active_connections[key]] *)
Definition getitem (reg : gmap str (gmap str pyval)) (key : json)
    : exception + (str * gmap str pyval) :=
  match key with
  | JStr s =>
      match reg !! s with
      | Some record => inr (s, record)
      | None => inl (KeyError key)
      end
  | JArr _ | JObj _ => inl (unhashable key)
  | _ => inl (KeyError key)
  end.

(** [del self.active_connections[key]] *)
Definition delitem (reg : gmap str (gmap str pyval)) (key : json)
    : exception + gmap str (gmap str pyval) :=
  match getitem reg key with
  | inr (s, _) => inr (delete s reg)
  | inl e => inl e
  end.

(** ** The session handlers *)

(** The handlers are coroutines on a single-threaded event loop.  Each one
    suspends at [await request.json()], before it looks at the registry, and
    ([handle_avatar_speak] only) at [await asyncio.sleep(0.1)], after its last
    access to it; between the two it runs without interruption.  So a
    handler's work on the registry is one step, taken on the registry as it
    is when the request body has arrived.  The calls to [logger.error] leave
    [self] alone and are not modelled.

    A handler that is suspended may be cancelled instead of resumed.  The
    [CancelledError] raised at the [await] is not an [Exception]: no
    [except] clause of the handler catches it and the handler makes no
    response.  At [await request.json()] nothing has been done yet; at the
    sleep of [handle_avatar_speak] the flag has been set, and
    [handle_avatar_speak_cancelled] is the handler that ends there. *)

(** The record [handle_avatar_connect] stores. *)
Definition connection_info (character style background : json) (now : datetime)
    : gmap str pyval :=
  {[ lit "character" := PJson character;
     lit "style" := PJson style;
     lit "background" := PJson background;
     lit "created_at" := PDatetime now;
     lit "speaking" := PJson (JBool false) ]}.

(** The [try] block of [handle_avatar_connect].  [rnd] is the randomness
    [uuid.uuid4()] draws and [now] the reading of [datetime.utcnow()]. *)
Definition try_avatar_connect (request : Request) (rnd : N) (now : datetime)
    : M Response :=
  let* data := lift (request_json request) in
  let* character := lift (get data "character" (JStr (lit "lisa"))) in
  let* style := lift (get data "style" (JStr (lit "casual-sitting"))) in
  let* background := lift (get data "background" (JStr (lit "#FFFFFF"))) in
  let connection_id := str_uuid (uuid4 rnd) in
  let* _ := modify (insert connection_id
                      (connection_info character style background now)) in
  ret (json_response
         (JObj {[ lit "connection_id" := JStr connection_id;
                  lit "character" := character;
                  lit "style" := style;
                  lit "background" := background;
                  lit "status" := JStr (lit "connected") ]})
         200).

Definition handle_avatar_connect (request : Request) (rnd : N) (now : datetime)
    : AvatarService → AvatarService * Response :=
  answer (try_avatar_connect request rnd now) error_500.

(** [self.active_connections[connection_id]['speaking'] = True] *)
Definition mark_speaking (connection_id : json) : M unit :=
  let* reg := gets active_connections in
  let* entry := lift (getitem reg connection_id) in
  modify (insert entry.1 (<[ lit "speaking" := PJson (JBool true) ]> entry.2)).

(** Lines 112-124 of [handle_avatar_speak], the [try] block up to
    [await asyncio.sleep(0.1)]: it yields the response of an early [return],
    or the values the last response is made of. *)
Definition avatar_speak_begin (request : Request)
    : M (Response + json * json * json) :=
  let* data := lift (request_json request) in
  let* connection_id := lift (get data "connection_id" JNull) in
  let* text := lift (get data "text" (JStr [])) in
  let* voice := lift (get data "voice" (JStr (lit "en-US-AriaNeural"))) in
  let* invalid :=
    (if negb (truthy connection_id) then ret true
     else
       let* reg := gets active_connections in
       let* present := lift (contains reg connection_id) in
       ret (negb present)) in
  if invalid : bool then
    ret (inl (json_response
                (JObj {[ lit "error" := JStr (lit "Invalid connection") ]}) 400))
  else
    let* stripped := lift (str_strip text) in
    match stripped with
    | [] =>
        ret (inl (json_response
                    (JObj {[ lit "error" := JStr (lit "No text provided") ]}) 400))
    | _ :: _ =>
        let* _ := mark_speaking connection_id in
        ret (inr (connection_id, text, voice))
    end.

(** Lines 130-135: the response made after the sleep. *)
Definition avatar_speak_end (values : json * json * json) : Response :=
  json_response
    (JObj {[ lit "connection_id" := values.1.1;
             lit "text" := values.1.2;
             lit "voice" := values.2;
             lit "status" := JStr (lit "speaking") ]})
    200.

(** [await asyncio.sleep(0.1)] in a handler that is resumed. *)
Definition asyncio_sleep : M unit := ret tt.

(** The [try] block of [handle_avatar_speak], run to its end. *)
Definition try_avatar_speak (request : Request) : M Response :=
  let* reached := avatar_speak_begin request in
  match reached with
  | inl response => ret response
  | inr values =>
      let* _ := asyncio_sleep in
      ret (avatar_speak_end values)
  end.

Definition handle_avatar_speak (request : Request)
    : AvatarService → AvatarService * Response :=
  answer (try_avatar_speak request) error_500.

(** [handle_avatar_speak] cancelled while it sleeps: a handler that came as
    far as the sleep ends there without a response, and what it did to
    [self] stays done; one that returned or raised before has answered. *)
Definition handle_avatar_speak_cancelled (request : Request) (self : AvatarService)
    : AvatarService * option Response :=
  match avatar_speak_begin request self with
  | (inr (inl response), self') => (self', Some response)
  | (inr (inr _), self') => (self', None)
  | (inl e, self') => (self', Some (error_500 e))
  end.

(** The [try] block of [handle_avatar_disconnect]. *)
Definition try_avatar_disconnect (request : Request) : M Response :=
  let* data := lift (request_json request) in
  let* connection_id := lift (get data "connection_id" JNull) in
  let* found :=
    (if truthy connection_id then
       let* reg := gets active_connections in
       lift (contains reg connection_id)
     else ret false) in
  if found : bool then
    let* reg := gets active_connections in
    let* reg' := lift (delitem reg connection_id) in
    let* _ := modify (λ _, reg') in
    ret (json_response (JObj {[ lit "status" := JStr (lit "disconnected") ]}) 200)
  else
    ret (json_response (JObj {[ lit "error" := JStr (lit "Connection not found") ]}) 404).

Definition handle_avatar_disconnect (request : Request)
    : AvatarService → AvatarService * Response :=
  answer (try_avatar_disconnect request) error_500.

(** ** Token issuance *)

(** The dictionary of lines 53-58, once its ['exp'] entry is computed. *)
Definition token_dict (rnd : N) (exp iat : datetime) : gmap str pyval :=
  {[ lit "iss" := PJson (JStr (lit "avatar-service"));
     lit "sub" := PJson (JStr (str_uuid (uuid4 rnd)));
     lit "exp" := PDatetime exp;
     lit "iat" := PDatetime iat ]}.

(** The claims [get_ice_token] hands to [jwt.encode].  The dictionary display
    evaluates its values in order: [uuid.uuid4()], then [datetime.utcnow() +
    timedelta(hours=1)] for ['exp'] (reading [now_exp]), which raises
    [OverflowError] in the last hour of the year 9999, then
    [datetime.utcnow()] again for ['iat'] (reading [now_iat]). *)
Definition ice_token_data (rnd : N) (now_exp now_iat : datetime)
    : exception + gmap str pyval :=
  match datetime_add now_exp (timedelta_hours 1) with
  | inr exp => inr (token_dict rnd exp now_iat)
  | inl e => inl e
  end.

(** What [jwt.encode] serialises for one claim: a [datetime] under ['exp'],
    ['iat'] or ['nbf'] becomes its [timegm]; a [datetime] elsewhere is not
    JSON serialisable. *)
Definition jwt_claim (name : str) (v : pyval) : option json :=
  match v with
  | PJson j => Some j
  | PDatetime t =>
      if bool_decide (name ∈ [lit "exp"; lit "iat"; lit "nbf"])
      then Some (JInt (timegm t)) else None
  end.

Definition jwt_payload (payload : gmap str pyval) : exception + gmap str json :=
  let claims := map_imap jwt_claim payload in
  if bool_decide (dom claims = dom payload) then inr claims
  else inl (TypeError (lit "Object of type datetime is not JSON serializable")).

(** The static list of ICE server descriptors. *)
Definition ice_servers : json :=
  JArr [JObj {[ lit "urls" := JArr [JStr (lit "stun:stun.l.google.com:19302")];
                lit "username" := JStr [];
                lit "credential" := JStr [] ]}].

Section Tokens.

(** The speech SDK and the signing half of PyJWT are outside the
    repository: a [SpeechConfig] constructor called with or without a
    subscription key, its [get_property] at
    [PropertyId.SpeechServiceAuthorization_Token], and the HS256 signature
    over a set of claims. *)
Variable config_t : Type.
Variable SpeechConfig : option str → str → exception + config_t.
Variable get_property : config_t → exception + str.
Variable hs256 : gmap str json → str → exception + str.

(** [jwt.encode(payload, key, algorithm='HS256')] *)
Definition jwt_encode (payload : gmap str pyval) (key : str) : exception + str :=
  match jwt_payload payload with
  | inr claims => hs256 claims key
  | inl e => inl e
  end.

(** The [except] clause logs and re-raises, so the exception is the one the
    body raised. *)
Definition get_speech_token (self : AvatarService) : exception + json :=
  let config :=
    match speech_key self with
    | Some (c :: key) => SpeechConfig (Some (c :: key)) (speech_region self)
    | Some [] | None => SpeechConfig None (speech_region self)
    end in
  match config with
  | inr speech_config =>
      match get_property speech_config with
      | inr auth_token =>
          inr (JObj {[ lit "token" := JStr auth_token;
                       lit "region" := JStr (speech_region self);
                       lit "expires_in" := JInt 3600 ]})
      | inl e => inl e
      end
  | inl e => inl e
  end.

(** [environ] is [os.environ] at the time of the call. *)
Definition get_ice_token (environ : gmap str str) (rnd : N)
    (now_exp now_iat : datetime) (self : AvatarService) : exception + json :=
  match ice_token_data rnd now_exp now_iat with
  | inr token_data =>
      let secret :=
        match environ !! lit "ICE_TOKEN_SECRET" with
        | Some v => v
        | None => lit "avatar-service-secret"
        end in
      match jwt_encode token_data secret with
      | inr token =>
          inr (JObj {[ lit "token" := JStr token; lit "ice_servers" := ice_servers ]})
      | inl e => inl e
      end
  | inl e => inl e
  end.

Definition handle_speech_token (request : Request) (self : AvatarService)
    : AvatarService * Response :=
  match get_speech_token self with
  | inr token_info => (self, json_response token_info 200)
  | inl e => (self, error_500 e)
  end.

Definition handle_ice_token (environ : gmap str str) (rnd : N)
    (now_exp now_iat : datetime) (request : Request) (self : AvatarService)
    : AvatarService * Response :=
  match get_ice_token environ rnd now_exp now_iat self with
  | inr token_info => (self, json_response token_info 200)
  | inl e => (self, error_500 e)
  end.

End Tokens.

(** ** Sequences of session requests *)

Inductive op : Type :=
  | Connect (request : Request) (rnd : N) (now : datetime)
  | Speak (request : Request)
  | Disconnect (request : Request).

Definition step (o : op) : AvatarService → AvatarService * Response :=
  match o with
  | Connect request rnd now => handle_avatar_connect request rnd now
  | Speak request => handle_avatar_speak request
  | Disconnect request => handle_avatar_disconnect request
  end.

(** What becomes of a handler at its [await]s: it is resumed each time, or
    cancelled while it reads the request, or cancelled while it sleeps. *)
Inductive fate : Type := Resumed | Cancelled_reading | Cancelled_sleeping.

(** One request as the event loop serves it, with the response if there is
    one.  A handler cancelled at [await request.json()] has done nothing;
    only [handle_avatar_speak] sleeps; [step] is the handler that is
    resumed. *)
Definition served (o : op) (f : fate) (self : AvatarService)
    : AvatarService * option Response :=
  match f, o with
  | Cancelled_reading, _ => (self, None)
  | Cancelled_sleeping, Speak request => handle_avatar_speak_cancelled request self
  | _, _ => ((step o self).1, Some (step o self).2)
  end.

(** The service after a sequence of requests, served one after the other. *)
Definition exec (ops : list op) (self : AvatarService) : AvatarService :=
  foldl (λ s o, (step o s).1) self ops.

(** What was asked and what was answered. *)
Fixpoint trace (ops : list op) (self : AvatarService) : list (op * Response) :=
  match ops with
  | [] => []
  | o :: ops' => (o, (step o self).2) :: trace ops' (step o self).1
  end.

(** [r] is the string [k]. *)
Definition names (k : str) (r : exception + json) : bool :=
  match r with
  | inr (JStr s) => bool_decide (s = k)
  | _ => false
  end.

(** The request's ['connection_id']. *)
Definition requested_id (request : Request) : exception + json :=
  match request_json request with
  | inr data => get data "connection_id" JNull
  | inl e => inl e
  end.

(** A connect that answered 200 with connection identifier [k]. *)
Definition generated (k : str) (e : op * Response) : bool :=
  match e.1 with
  | Connect _ _ _ =>
      bool_decide (status e.2 = 200) && names k (get (body e.2) "connection_id" JNull)
  | _ => false
  end.

(** A disconnect of [k] that answered 200. *)
Definition removed (k : str) (e : op * Response) : bool :=
  match e.1 with
  | Disconnect request =>
      bool_decide (status e.2 = 200) && names k (requested_id request)
  | _ => false
  end.

(** Some connect generated [k] and no later disconnect removed it. *)
Definition live (k : str) (tr : list (op * Response)) : Prop :=
  ∃ pre e post,
    tr = pre ++ e :: post ∧ generated k e = true ∧
    Forall (λ e', removed k e' = false) post.

(** The keys of a session record. *)
Definition record_fields : gset str :=
  {[ lit "character"; lit "style"; lit "background"; lit "created_at"; lit "speaking" ]}.

(** The services that exist: a fresh one, and what the session handlers make
    of one. *)
Inductive reachable : AvatarService → Prop :=
  | reachable_init environ : reachable (AvatarService_init environ)
  | reachable_step o self : reachable self → reachable (step o self).1.

(** Every key of the registry is a non-empty string and every record has
    exactly the five fields. *)
Definition well_formed (self : AvatarService) : Prop :=
  ∀ k record,
    active_connections self !! k = Some record →
    k ≠ [] ∧ dom record = record_fields.

(** The value a request gives for [key], or the string [default] when the
    request has no such field. *)
Definition resolved (d : gmap str json) (key default : string) : json :=
  match d !! lit key with
  | Some v => v
  | None => JStr (lit default)
  end.

(** ** Concrete requests, for the examples *)

(** A request whose body parsed to [data]. *)
Definition post (data : json) : Request := {| request_json := inr data |}.

(** A dictionary given by its items, and the JSON object it is. *)
Definition items (l : list (string * json)) : gmap str json :=
  list_to_map (map (λ item, (lit item.1, item.2)) l).

Definition json_object (l : list (string * json)) : json := JObj (items l).

(** The connect request of the specification's example, and the service it
    leaves behind when it is the first request, at 2024-01-01 00:00:00 and
    with all random bytes zero. *)
Definition connect_lisa : Request :=
  post (json_object [("character"%string, JStr (lit "lisa"))]).

Definition one_session : AvatarService :=
  (step (Connect connect_lisa 0 1704067200000000) (AvatarService_init ∅)).1.

Definition session_id : str := str_uuid (uuid4 0).

(** Requests that name that session. *)
Definition speak_hello : Request :=
  post (json_object [("connection_id"%string, JStr session_id);
                     ("text"%string, JStr (lit "hello"))]).

Definition speak_blank : Request :=
  post (json_object [("connection_id"%string, JStr session_id);
                     ("text"%string, JStr (lit "  "))]).

Definition disconnect_session : Request :=
  post (json_object [("connection_id"%string, JStr session_id)]).

(** Requests that parse and are not what the handlers expect: a body that is
    an array, and a connection_id that is an array. *)
Definition connect_array : Request := post (JArr []).

Definition speak_list_id : Request :=
  post (json_object [("connection_id"%string, JArr [JInt 1]);
                     ("text"%string, JStr (lit "hi"))]).

(** A speech SDK that hands out the token "t0". *)
Definition sdk_config (subscription : option str) (region : str) : exception + unit :=
  inr tt.

Definition sdk_token (config : unit) : exception + str := inr (lit "t0").

(** ** Routes *)

Inductive http_method : Type := GET | POST.

(** The bound methods [setup_routes] registers. *)
Inductive route_handler : Type :=
  | H_avatar_connect
  | H_avatar_speak
  | H_avatar_disconnect
  | H_speech_token
  | H_ice_token.

Record route : Type := {
  route_method : http_method;
  route_path : str;
  route_target : route_handler
}.

(** [app.router.add_post(path, handler)] and [app.router.add_get(path,
    handler)]: the route goes after the ones already registered. *)
Definition add_post (path : string) (handler : route_handler) (router : list route)
    : list route :=
  router ++ [{| route_method := POST; route_path := lit path; route_target := handler |}].

Definition add_get (path : string) (handler : route_handler) (router : list route)
    : list route :=
  router ++ [{| route_method := GET; route_path := lit path; route_target := handler |}].

(** [setup_routes(app)], on the routes [app.router] holds. *)
Definition setup_routes (router : list route) : list route :=
  add_get "/api/avatar/ice-token" H_ice_token
    (add_get "/api/avatar/speech-token" H_speech_token
       (add_post "/api/avatar/disconnect" H_avatar_disconnect
          (add_post "/api/avatar/speak" H_avatar_speak
             (add_post "/api/avatar/connect" H_avatar_connect router)))).

Definition http_method_eqb (a b : http_method) : bool :=
  match a, b with
  | GET, GET | POST, POST => true
  | _, _ => false
  end.

(** The handler the router picks for a method and a path: the first route
    registered for both. *)
Fixpoint resolve (router : list route) (method : http_method) (path : str)
    : option route_handler :=
  match router with
  | [] => None
  | r :: router' =>
      if http_method_eqb (route_method r) method && bool_decide (route_path r = path)
      then Some (route_target r)
      else resolve router' method path
  end.

(** What one call takes from outside the service: the random bytes of
    [uuid.uuid4()], two readings of the clock and [os.environ]. *)
Record outside : Type := {
  random_bytes : N;
  clock : datetime;
  clock_again : datetime;
  os_environ : gmap str str
}.

Section Routes.

Variable config_t : Type.
Variable SpeechConfig : option str → str → exception + config_t.
Variable get_property : config_t → exception + str.
Variable hs256 : gmap str json → str → exception + str.

(** Calling the bound method a route names. *)
Definition call (handler : route_handler) (request : Request) (w : outside)
    : AvatarService → AvatarService * Response :=
  match handler with
  | H_avatar_connect => handle_avatar_connect request (random_bytes w) (clock w)
  | H_avatar_speak => handle_avatar_speak request
  | H_avatar_disconnect => handle_avatar_disconnect request
  | H_speech_token => handle_speech_token config_t SpeechConfig get_property request
  | H_ice_token =>
      handle_ice_token hs256 (os_environ w) (random_bytes w) (clock w) (clock_again w)
        request
  end.

End Routes.

(** ** Vocabulary of the further properties *)

(** The request of an operation. *)
Definition op_request (o : op) : Request :=
  match o with
  | Connect request _ _ | Speak request | Disconnect request => request
  end.

(** The number of connect requests in a sequence. *)
Fixpoint connects (ops : list op) : nat :=
  match ops with
  | [] => 0
  | Connect _ _ _ :: ops' => S (connects ops')
  | _ :: ops' => connects ops'
  end.

(** The subscription key [get_speech_token] passes to [SpeechConfig]: the
    speech key when it is set and not empty. *)
Definition subscription (self : AvatarService) : option str :=
  match speech_key self with
  | Some (c :: key) => Some (c :: key)
  | Some [] | None => None
  end.

(** The status codes a handler may answer with. *)
Definition statuses (o : op) : list Z :=
  match o with
  | Connect _ _ _ => [200; 500]
  | Speak _ => [200; 400; 500]
  | Disconnect _ => [200; 404; 500]
  end.

(** Further requests for the examples: a body that is not JSON, a text with
    blanks around it, a text that is [null], and a session that was never
    opened. *)
Definition not_json : Request :=
  {| request_json := inl (OtherError (lit "Expecting value: line 1 column 1 (char 0)")) |}.

Definition speak_padded : Request :=
  post (json_object [("connection_id"%string, JStr session_id);
                     ("text"%string, JStr (lit " hi "))]).

Definition speak_null_text : Request :=
  post (json_object [("connection_id"%string, JStr session_id);
                     ("text"%string, JNull)]).

Definition disconnect_stranger : Request :=
  post (json_object [("connection_id"%string, JStr (lit "nobody"))]).

Definition disconnect_list_id : Request :=
  post (json_object [("connection_id"%string, JArr [JInt 1])]).

(** A speech SDK without credentials, and a signer that returns a fixed
    string. *)
Definition sdk_refuses (subscription : option str) (region : str) : exception + unit :=
  inl (OtherError (lit "no credentials")).

Definition sign_fixed (claims : gmap str json) (key : str) : exception + str :=
  inr (lit "jwt").

(** A session record whose configuration fields hold JSON values, whose
    ['created_at'] is a [datetime] and whose ['speaking'] is a [bool]. *)
Definition typed_record (record : gmap str pyval) : Prop :=
  (∃ character, record !! lit "character" = Some (PJson character)) ∧
  (∃ style, record !! lit "style" = Some (PJson style)) ∧
  (∃ background, record !! lit "background" = Some (PJson background)) ∧
  (∃ t, record !! lit "created_at" = Some (PDatetime t)) ∧
  (∃ b, record !! lit "speaking" = Some (PJson (JBool b))).

(** What the outside hands to a call on New Year's Day 2024. *)
Definition new_year : outside := {|
  random_bytes := 0;
  clock := 1704067200000000;
  clock_again := 1704067200000001;
  os_environ := ∅
|}.

(** The record the connect of [one_session] stores. *)
Definition lisa_record : gmap str pyval :=
  connection_info (JStr (lit "lisa")) (JStr (lit "casual-sitting"))
    (JStr (lit "#FFFFFF")) 1704067200000000.

(** * Properties *)

Arguments lit : simpl never.
Arguments str_uuid : simpl never.
Arguments uuid4 : simpl never.

(** ** Strings and identifiers *)

Lemma lstrip_nil s : lstrip s = [] ↔ forallb isspace s = true.
Proof.
  induction s as [|c s IH]; simpl; [done|].
  destruct (isspace c); simpl; [done|]. split; discriminate.
Qed.

Lemma lstrip_head s c r : lstrip s = c :: r → isspace c = false.
Proof.
  induction s as [|a s IH]; simpl; [discriminate|].
  destruct (isspace a) eqn:Ha; [done|]. by intros [= <- _].
Qed.

Lemma forallb_isspace_rev s : forallb isspace (rev s) = forallb isspace s.
Proof.
  induction s as [|c s IH]; simpl; [done|].
  rewrite forallb_app, IH. simpl. rewrite andb_true_r. apply andb_comm.
Qed.

(** [not text.strip()] holds exactly of the strings made of whitespace. *)
Lemma strip_nil s : strip s = [] ↔ forallb isspace s = true.
Proof.
  unfold strip, rstrip. split.
  - intros H. apply (f_equal (@rev N)) in H. rewrite rev_involutive in H.
    simpl in H. apply lstrip_nil in H. rewrite forallb_isspace_rev in H.
    destruct (lstrip s) as [|c r] eqn:E; [by apply lstrip_nil|].
    apply lstrip_head in E. simpl in H. rewrite E in H. discriminate.
  - intros H. apply lstrip_nil in H. by rewrite H.
Qed.

Lemma strip_cons s : forallb isspace s = false → ∃ c r, strip s = c :: r.
Proof.
  intros H. destruct (strip s) as [|c r] eqn:E; [|eauto].
  apply strip_nil in E. congruence.
Qed.

(** A [str(uuid)] has its four dashes, whatever the digits. *)
Lemma str_uuid_nonempty int : str_uuid int ≠ [].
Proof.
  unfold str_uuid. intros H. apply (f_equal length) in H.
  rewrite !length_app in H. simpl in H. lia.
Qed.

Lemma hex_length width n : length (hex width n) = width.
Proof.
  revert n. induction width as [|w IH]; intros n; simpl; [done|].
  rewrite length_app, IH. simpl. lia.
Qed.

Lemma str_uuid_length int : length (str_uuid int) = 36%nat.
Proof.
  unfold str_uuid.
  rewrite !length_app, !length_take, !length_drop, hex_length. reflexivity.
Qed.

(** ** What each handler does, case by case *)

Ltac run_handler :=
  unfold handle_avatar_connect, handle_avatar_speak, handle_avatar_disconnect,
    try_avatar_connect, try_avatar_speak, try_avatar_disconnect,
    avatar_speak_begin, avatar_speak_end, asyncio_sleep, mark_speaking, answer, bind, lift, gets, modify, ret, get, dict_get;
  cbn.

Lemma connect_object request d rnd now self :
  request_json request = inr (JObj d) →
  handle_avatar_connect request rnd now self =
    (set_active_connections
       (insert (str_uuid (uuid4 rnd))
          (connection_info
             (dict_get d "character" (JStr (lit "lisa")))
             (dict_get d "style" (JStr (lit "casual-sitting")))
             (dict_get d "background" (JStr (lit "#FFFFFF")))
             now))
       self,
     json_response
       (JObj {[ lit "connection_id" := JStr (str_uuid (uuid4 rnd));
                lit "character" := dict_get d "character" (JStr (lit "lisa"));
                lit "style" := dict_get d "style" (JStr (lit "casual-sitting"));
                lit "background" := dict_get d "background" (JStr (lit "#FFFFFF"));
                lit "status" := JStr (lit "connected") ]})
       200).
Proof.
  intros Hreq. run_handler. rewrite Hreq. reflexivity.
Qed.

Lemma connect_failure request rnd now self :
  (∀ d, request_json request ≠ inr (JObj d)) →
  ∃ e, handle_avatar_connect request rnd now self = (self, error_500 e).
Proof.
  intros Hreq. run_handler.
  destruct (request_json request) as [e|data]; [by eexists|].
  destruct data; try by eexists. by destruct (Hreq d).
Qed.

(** A speak request either leaves the service alone and answers 400 or 500,
    or finds its record, sets the flag and answers 200. *)
Lemma speak_cases request self :
  let r := handle_avatar_speak request self in
  (r.1 = self ∧ status r.2 ≠ 200) ∨
  (∃ d k record,
      request_json request = inr (JObj d) ∧
      d !! lit "connection_id" = Some (JStr k) ∧
      active_connections self !! k = Some record ∧
      r.1 = set_active_connections
              (insert k (<[ lit "speaking" := PJson (JBool true) ]> record)) self ∧
      r.2 = json_response
              (JObj {[ lit "connection_id" := JStr k;
                       lit "text" := dict_get d "text" (JStr []);
                       lit "voice" := dict_get d "voice" (JStr (lit "en-US-AriaNeural"));
                       lit "status" := JStr (lit "speaking") ]})
              200).
Proof.
  run_handler.
  destruct (request_json request) as [e|data] eqn:Hreq; [by left|].
  destruct data as [| | | | |l|d]; try by left.
  cbn.
  destruct (d !! lit "connection_id") as [cid|] eqn:Hcid; [|by left].
  destruct (truthy cid) eqn:Ht; cbn; [|by left].
  destruct cid as [| | | |k|l|d']; cbn; try by left.
  destruct (active_connections self !! k) as [record|] eqn:Hk; cbn; [|by left].
  destruct (match d !! lit "text" with Some v => v | None => JStr [] end)
    as [| | | |t| |] eqn:Htext; cbn; try by left.
  destruct (strip t) eqn:Hs; cbn; [by left|].
  right. exists d, k, record. rewrite Hk, Htext. cbn. done.
Qed.

(** A disconnect request either leaves the service alone and answers 404 or
    500, or deletes the record it names and answers 200. *)
Lemma disconnect_cases request self :
  let r := handle_avatar_disconnect request self in
  (r.1 = self ∧ status r.2 ≠ 200) ∨
  (∃ d k record,
      request_json request = inr (JObj d) ∧
      d !! lit "connection_id" = Some (JStr k) ∧
      active_connections self !! k = Some record ∧
      r.1 = set_active_connections (λ _, delete k (active_connections self)) self ∧
      r.2 = json_response (JObj {[ lit "status" := JStr (lit "disconnected") ]}) 200).
Proof.
  run_handler.
  destruct (request_json request) as [e|data] eqn:Hreq; [by left|].
  destruct data as [| | | | |l|d]; try by left.
  cbn.
  destruct (d !! lit "connection_id") as [cid|] eqn:Hcid; [|by left].
  destruct (truthy cid) eqn:Ht; cbn; [|by left].
  destruct cid as [| | | |k|l|d']; cbn; try by left.
  destruct (active_connections self !! k) as [record|] eqn:Hk; cbn; [|by left].
  right. exists d, k, record. unfold delitem, getitem. rewrite Hk. cbn. done.
Qed.

(** The subscript of line 124 comes after the membership test of line 117:
    it finds its key. *)
Lemma getitem_after_contains reg key :
  contains reg key = inr true → ∃ s record, getitem reg key = inr (s, record).
Proof.
  destruct key; cbn; try discriminate.
  intros [= H]. apply bool_decide_eq_true in H as [record H].
  rewrite H. eauto.
Qed.

Lemma connect_cases request rnd now self :
  let r := handle_avatar_connect request rnd now self in
  (r.1 = self ∧ status r.2 ≠ 200) ∨
  (∃ character style background,
      r.1 = set_active_connections
              (insert (str_uuid (uuid4 rnd))
                 (connection_info character style background now)) self ∧
      status r.2 = 200 ∧
      get (body r.2) "connection_id" JNull = inr (JStr (str_uuid (uuid4 rnd)))).
Proof.
  cbv zeta.
  destruct (request_json request) as [e|data] eqn:Hreq.
  - destruct (connect_failure request rnd now self) as [e' ->]; [congruence|].
    by left.
  - destruct data as [| | | | |l|d].
    7: { rewrite (connect_object request d) by done. right.
         do 3 eexists. split; [done|]. split; [done|].
         cbn. unfold dict_get. by rewrite lookup_insert_eq. }
    all: destruct (connect_failure request rnd now self) as [e' ->];
      [congruence|by left].
Qed.

(** ** Invariants of the registry *)

Lemma connection_info_dom character style background now :
  dom (connection_info character style background now) = record_fields.
Proof.
  unfold connection_info, record_fields.
  rewrite !dom_insert_L, dom_singleton_L. set_solver.
Qed.

Lemma step_well_formed o self : well_formed self → well_formed (step o self).1.
Proof.
  intros Hwf. destruct o as [request rnd now|request|request]; cbn.
  - destruct (connect_cases request rnd now self)
      as [[-> _]|(c & s & b & -> & _)]; [done|].
    intros k record. cbn. rewrite lookup_insert.
    case_decide as Hk.
    + intros [= <-]. subst k. split; [apply str_uuid_nonempty|].
      apply connection_info_dom.
    + apply Hwf.
  - destruct (speak_cases request self)
      as [[-> _]|(d & k0 & record0 & _ & _ & Hk0 & -> & _)]; [done|].
    intros k record. cbn. rewrite lookup_insert.
    case_decide as Hk.
    + intros [= <-]. subst k. destruct (Hwf _ _ Hk0) as [Hne Hdom].
      split; [done|]. rewrite dom_insert_L, Hdom. unfold record_fields.
      set_solver.
    + apply Hwf.
  - destruct (disconnect_cases request self)
      as [[-> _]|(d & k0 & record0 & _ & _ & Hk0 & -> & _)]; [done|].
    intros k record. cbn. rewrite lookup_delete.
    case_decide; [done|]. apply Hwf.
Qed.

Lemma reachable_well_formed self : reachable self → well_formed self.
Proof.
  induction 1 as [environ|o self _ IH].
  - intros k record. cbn. by rewrite lookup_empty.
  - by apply step_well_formed.
Qed.

Lemma exec_snoc ops o self :
  exec (ops ++ [o]) self = (step o (exec ops self)).1.
Proof. unfold exec. by rewrite foldl_app. Qed.

Lemma trace_snoc ops o self :
  trace (ops ++ [o]) self = trace ops self ++ [(o, (step o (exec ops self)).2)].
Proof.
  revert self. induction ops as [|o' ops IH]; intros self; cbn; [done|].
  by rewrite IH.
Qed.

Lemma exec_reachable environ ops : reachable (exec ops (AvatarService_init environ)).
Proof.
  induction ops as [|o ops IH] using rev_ind.
  - apply reachable_init.
  - rewrite exec_snoc. by apply reachable_step.
Qed.

Lemma reachable_exec self :
  reachable self → ∃ environ ops, self = exec ops (AvatarService_init environ).
Proof.
  induction 1 as [environ|o self _ (environ & ops & ->)].
  - by exists environ, [].
  - exists environ, (ops ++ [o]). by rewrite exec_snoc.
Qed.

(** Liveness of an identifier, one event at a time. *)
Lemma live_snoc k tr e :
  live k (tr ++ [e]) ↔ generated k e = true ∨ (live k tr ∧ removed k e = false).
Proof.
  split.
  - intros (pre & e0 & post & Heq & Hgen & Hpost).
    destruct post as [|x post _] using rev_ind.
    + apply app_inj_tail in Heq as [_ ->]. by left.
    + rewrite app_comm_cons, app_assoc in Heq.
      apply app_inj_tail in Heq as [-> ->].
      apply Forall_app in Hpost as [Hpost Hx].
      right. split; [by exists pre, e0, post|]. by inversion Hx.
  - intros [Hgen|[(pre & e0 & post & -> & Hgen & Hpost) Hrem]].
    + exists tr, e, []. by split_and!.
    + exists pre, e0, (post ++ [e]). split_and!; [|done|].
      * by rewrite <- app_assoc.
      * apply Forall_app. split; [done|]. by constructor.
Qed.

Ltac not_KeyError := cbn; unfold no_attribute, unhashable; congruence.

(** The subscripts of the handlers raise no [KeyError]: one that leaves a
    [try] block was raised by [request.json()]. *)
Lemma try_avatar_speak_no_KeyError request self key :
  (try_avatar_speak request self).1 = inl (KeyError key) →
  request_json request = inl (KeyError key).
Proof.
  run_handler.
  destruct (request_json request) as [e|data]; [not_KeyError|].
  destruct data as [| | | | |l|d]; try (not_KeyError).
  cbn.
  destruct (d !! lit "connection_id") as [cid|]; [|not_KeyError].
  destruct (truthy cid); cbn; [|not_KeyError].
  destruct cid as [| | | |k|l|d']; cbn; try not_KeyError.
  destruct (active_connections self !! k) as [record|] eqn:Hk; cbn; [|not_KeyError].
  destruct (match d !! lit "text" with Some v => v | None => JStr [] end)
    as [| | | |t| |]; cbn; try not_KeyError.
  destruct (strip t); cbn; [not_KeyError|]. rewrite Hk. not_KeyError.
Qed.

Lemma try_avatar_disconnect_no_KeyError request self key :
  (try_avatar_disconnect request self).1 = inl (KeyError key) →
  request_json request = inl (KeyError key).
Proof.
  run_handler.
  destruct (request_json request) as [e|data]; [not_KeyError|].
  destruct data as [| | | | |l|d]; try (not_KeyError).
  cbn.
  destruct (d !! lit "connection_id") as [cid|]; [|not_KeyError].
  destruct (truthy cid); cbn; [|not_KeyError].
  destruct cid as [| | | |k|l|d']; cbn; try not_KeyError.
  destruct (active_connections self !! k) as [record|] eqn:Hk; cbn; [|not_KeyError].
  unfold delitem, getitem. rewrite Hk. not_KeyError.
Qed.

(** A speak request that names a record of a reachable service and brings a
    text with a character that is not whitespace is answered 200. *)
Lemma speak_succeeds request d k text self :
  reachable self →
  request_json request = inr (JObj d) →
  d !! lit "connection_id" = Some (JStr k) →
  is_Some (active_connections self !! k) →
  d !! lit "text" = Some (JStr text) →
  forallb isspace text = false →
  status (handle_avatar_speak request self).2 = 200.
Proof.
  intros Hreach Hreq Hcid [record Hk] Htext Hsome.
  destruct (reachable_well_formed _ Hreach _ _ Hk) as [Hne _].
  destruct (strip_cons _ Hsome) as (c & r & Hstrip).
  run_handler. rewrite Hreq. cbn. rewrite Hcid.
  destruct k as [|c0 k]; [done|]. cbn. rewrite Hk. cbn.
  rewrite Htext. cbn. rewrite Hstrip. cbn. by rewrite Hk.
Qed.

(** How one request moves the set of keys. *)
Lemma step_membership o self k :
  let r := step o self in
  is_Some (active_connections r.1 !! k) ↔
    generated k (o, r.2) = true ∨
    (is_Some (active_connections self !! k) ∧ removed k (o, r.2) = false).
Proof.
  cbv zeta. destruct o as [request rnd now|request|request]; cbn.
  - unfold generated, removed. cbn.
    destruct (connect_cases request rnd now self)
      as [[-> Hst]|(c & s & b & Hself & Hst & Hid)]; cbn.
    + rewrite bool_decide_eq_false_2 by done. naive_solver.
    + rewrite Hself, Hst, Hid. cbn.
      rewrite lookup_insert_is_Some, andb_true_iff, !bool_decide_eq_true.
      destruct (decide (str_uuid (uuid4 rnd) = k)); naive_solver.
  - unfold generated, removed. cbn.
    destruct (speak_cases request self)
      as [[-> _]|(d & k0 & record0 & _ & _ & Hk0 & -> & _)]; cbn.
    + naive_solver.
    + rewrite lookup_insert_is_Some.
      destruct (decide (k0 = k)) as [<-|]; naive_solver.
  - unfold generated, removed, requested_id. cbn.
    destruct (disconnect_cases request self)
      as [[-> Hst]|(d & k0 & record0 & Hreq & Hcid & Hk0 & Hself & Hresp)]; cbn.
    + rewrite bool_decide_eq_false_2 by done. naive_solver.
    + rewrite Hself, Hresp, Hreq. cbn. unfold dict_get. rewrite Hcid. cbn.
      rewrite lookup_delete_is_Some, andb_false_iff, !bool_decide_eq_false.
      split.
      * intros [Hne Hk]. right. split; [done|by right].
      * intros [?|[Hk [?|Hne]]]; done.
Qed.

(** ** The claims *)

(** C8. Starting from the empty registry, after any sequence of connect,
    speak and disconnect requests, an identifier is a key of the registry
    exactly when some connect generated it and no later disconnect removed
    it; and every record of the registry has exactly the five fields
    character, style, background, created_at and speaking. *)
Theorem registry_membership environ ops k :
  let start := AvatarService_init environ in
  let self := exec ops start in
  (is_Some (active_connections self !! k) ↔ live k (trace ops start)) ∧
  (∀ record, active_connections self !! k = Some record →
             dom record = record_fields).
Proof.
  cbv zeta. split.
  - induction ops as [|o ops IH] using rev_ind.
    + cbn. rewrite lookup_empty. split; [by intros [? ?]|].
      intros (pre & e & post & Heq & _). by destruct pre.
    + rewrite exec_snoc, trace_snoc, live_snoc, step_membership, IH. done.
  - intros record Hk.
    by destruct (reachable_well_formed _ (exec_reachable environ ops) _ _ Hk).
Qed.

Lemma requested_id_inv request v :
  requested_id request = inr v →
  ∃ d, request_json request = inr (JObj d) ∧ dict_get d "connection_id" JNull = v.
Proof.
  unfold requested_id. destruct (request_json request) as [e|data]; [done|].
  destruct data; cbn; try done. intros [= <-]. eauto.
Qed.

(** C2, as the code has it. For every connect request whose JSON body parses
    to an object, [handle_avatar_connect] answers 200 with the connection
    identifier generated in this call, status "connected" and the resolved
    configuration, where each of character, style and background absent from
    the body is "lisa", "casual-sitting" and "#FFFFFF"; the record stored
    under the identifier holds the same resolved values. *)
Theorem connect_object_succeeds request d rnd now self :
  request_json request = inr (JObj d) →
  let r := handle_avatar_connect request rnd now self in
  status r.2 = 200 ∧
  body r.2 =
    JObj {[ lit "connection_id" := JStr (str_uuid (uuid4 rnd));
            lit "character" := resolved d "character" "lisa";
            lit "style" := resolved d "style" "casual-sitting";
            lit "background" := resolved d "background" "#FFFFFF";
            lit "status" := JStr (lit "connected") ]} ∧
  active_connections r.1 !! str_uuid (uuid4 rnd) =
    Some (connection_info (resolved d "character" "lisa")
            (resolved d "style" "casual-sitting")
            (resolved d "background" "#FFFFFF") now).
Proof.
  intros Hreq. cbv zeta. rewrite (connect_object request d) by done.
  cbn. by rewrite lookup_insert_eq.
Qed.

(** C3, as the code has it. For every speak request with a JSON object body
    whose connection_id is missing, falsy, or a string, number or boolean
    that is not a key of the registry, [handle_avatar_speak] answers 400
    "Invalid connection" and leaves the service as it was, whatever the text
    field holds. *)
Theorem speak_unknown_connection request connection_id self :
  requested_id request = inr connection_id →
  truthy connection_id = false ∨
    contains (active_connections self) connection_id = inr false →
  handle_avatar_speak request self =
    (self, json_response (JObj {[ lit "error" := JStr (lit "Invalid connection") ]}) 400).
Proof.
  intros (d & Hreq & Hcid)%requested_id_inv Hbad.
  run_handler. rewrite Hreq. cbn. unfold dict_get in Hcid. rewrite Hcid.
  destruct (truthy connection_id) eqn:Ht; cbn; [|done].
  destruct Hbad as [?| ->]; done.
Qed.

(** C4. For every speak request whose connection_id is in the registry and
    whose text is missing, empty or made of whitespace only,
    [handle_avatar_speak] answers 400 "No text provided" and the service is
    unchanged; in particular a speaking flag that was false is still false. *)
Theorem speak_blank_text request d k text self :
  reachable self →
  request_json request = inr (JObj d) →
  d !! lit "connection_id" = Some (JStr k) →
  is_Some (active_connections self !! k) →
  dict_get d "text" (JStr []) = JStr text →
  forallb isspace text = true →
  let r := handle_avatar_speak request self in
  r = (self, json_response (JObj {[ lit "error" := JStr (lit "No text provided") ]}) 400) ∧
  ∀ record,
    active_connections self !! k = Some record →
    record !! lit "speaking" = Some (PJson (JBool false)) →
    ∃ record', active_connections r.1 !! k = Some record' ∧
               record' !! lit "speaking" = Some (PJson (JBool false)).
Proof.
  intros Hreach Hreq Hcid [record Hk] Htext Hblank. cbv zeta.
  assert (handle_avatar_speak request self =
    (self, json_response (JObj {[ lit "error" := JStr (lit "No text provided") ]}) 400))
    as ->.
  { destruct (reachable_well_formed _ Hreach _ _ Hk) as [Hne _].
    run_handler. rewrite Hreq. cbn. rewrite Hcid.
    destruct k as [|c k]; [done|]. cbn. rewrite Hk. cbn.
    unfold dict_get in Htext. rewrite Htext. cbn.
    apply strip_nil in Hblank. by rewrite Hblank. }
  split; [done|]. intros record0 Hk0 Hflag. by exists record0.
Qed.

(** C5. For every connection_id in the registry, a disconnect request
    answers 200 "disconnected" and removes the record; right after it, a
    second disconnect of the same identifier answers 404 and a speak on it
    answers 400. *)
Theorem disconnect_is_final self k first second third :
  reachable self →
  is_Some (active_connections self !! k) →
  requested_id first = inr (JStr k) →
  requested_id second = inr (JStr k) →
  requested_id third = inr (JStr k) →
  let r := handle_avatar_disconnect first self in
  r.2 = json_response (JObj {[ lit "status" := JStr (lit "disconnected") ]}) 200 ∧
  active_connections r.1 !! k = None ∧
  (handle_avatar_disconnect second r.1).2 =
    json_response (JObj {[ lit "error" := JStr (lit "Connection not found") ]}) 404 ∧
  (handle_avatar_speak third r.1).2 =
    json_response (JObj {[ lit "error" := JStr (lit "Invalid connection") ]}) 400.
Proof.
  intros Hreach [record Hk] (d1 & Hreq1 & Hcid1)%requested_id_inv
    (d2 & Hreq2 & Hcid2)%requested_id_inv (d3 & Hreq3 & Hcid3)%requested_id_inv.
  cbv zeta.
  destruct (reachable_well_formed _ Hreach _ _ Hk) as [Hne _].
  unfold dict_get in Hcid1, Hcid2, Hcid3.
  assert (handle_avatar_disconnect first self =
    (set_active_connections (λ _, delete k (active_connections self)) self,
     json_response (JObj {[ lit "status" := JStr (lit "disconnected") ]}) 200))
    as ->.
  { run_handler. rewrite Hreq1. cbn. rewrite Hcid1.
    destruct k as [|c k]; [done|]. cbn. rewrite Hk. cbn.
    unfold delitem, getitem. by rewrite Hk. }
  cbn. split; [done|]. split; [apply lookup_delete_eq|]. split.
  - run_handler. rewrite Hreq2. cbn. rewrite Hcid2.
    destruct k as [|c k]; [done|]. cbn. by rewrite lookup_delete_eq.
  - run_handler. rewrite Hreq3. cbn. rewrite Hcid3.
    destruct k as [|c k]; [done|]. cbn. by rewrite lookup_delete_eq.
Qed.

(** C7. A speak request that succeeds changes the registry in one place
    only: the record it names has its speaking flag set to true and every
    other field as before (character, style, background and created_at
    among them), and every other record is as before. *)
Theorem speak_only_sets_speaking request self :
  let r := handle_avatar_speak request self in
  status r.2 = 200 →
  ∃ k record record',
    requested_id request = inr (JStr k) ∧
    active_connections self !! k = Some record ∧
    active_connections r.1 !! k = Some record' ∧
    record' !! lit "speaking" = Some (PJson (JBool true)) ∧
    (∀ field, field ≠ lit "speaking" → record' !! field = record !! field) ∧
    (∀ k', k' ≠ k → active_connections r.1 !! k' = active_connections self !! k').
Proof.
  cbv zeta. intros Hok.
  destruct (speak_cases request self)
    as [[_ Hst]|(d & k & record & Hreq & Hcid & Hk & Hself & _)]; [done|].
  exists k, record, (<[ lit "speaking" := PJson (JBool true) ]> record).
  rewrite Hself. cbn. split_and!.
  - unfold requested_id. rewrite Hreq. cbn. unfold dict_get. by rewrite Hcid.
  - done.
  - apply lookup_insert_eq.
  - apply lookup_insert_eq.
  - intros field Hfield. by apply lookup_insert_ne.
  - intros k' Hk'. by apply lookup_insert_ne.
Qed.

(** C9. In the answer to a speak request that succeeds, the voice is
    "en-US-AriaNeural" when the request has no voice field, and the value of
    that field, unchanged, when it has one. *)
Theorem speak_voice request d self :
  request_json request = inr (JObj d) →
  let r := handle_avatar_speak request self in
  status r.2 = 200 →
  ∃ answer,
    body r.2 = JObj answer ∧
    (d !! lit "voice" = None →
       answer !! lit "voice" = Some (JStr (lit "en-US-AriaNeural"))) ∧
    (∀ voice, d !! lit "voice" = Some voice → answer !! lit "voice" = Some voice).
Proof.
  intros Hreq. cbv zeta. intros Hok.
  destruct (speak_cases request self)
    as [[_ Hst]|(d' & k & record & Hreq' & _ & _ & _ & Hresp)]; [done|].
  assert (d' = d) as -> by congruence.
  rewrite Hresp. cbn. eexists. split; [done|].
  assert (lit "connection_id" ≠ lit "voice") by (by vm_compute).
  assert (lit "text" ≠ lit "voice") by (by vm_compute).
  rewrite !lookup_insert_ne, lookup_insert_eq by done. unfold dict_get.
  split; [by intros ->|]. by intros voice ->.
Qed.

(** C10, as the code has it. For every disconnect request with a JSON
    object body that has no connection_id field, or a falsy one,
    [handle_avatar_disconnect] answers 404 "Connection not found", not a
    400, and the service is unchanged. *)
Theorem disconnect_without_id request d self :
  request_json request = inr (JObj d) →
  (d !! lit "connection_id" = None ∨
   ∃ v, d !! lit "connection_id" = Some v ∧ truthy v = false) →
  handle_avatar_disconnect request self =
    (self, json_response (JObj {[ lit "error" := JStr (lit "Connection not found") ]}) 404).
Proof.
  intros Hreq Hid. run_handler. rewrite Hreq. cbn.
  destruct Hid as [->|(v & -> & Hv)]; [done|]. by rewrite Hv.
Qed.

(** ** Tokens *)

Arguments get_speech_token {config_t} SpeechConfig get_property self.

Lemma timegm_plus_hour t : timegm (t + timedelta_hours 1) = timegm t + 3600.
Proof.
  unfold timegm, timedelta_hours.
  replace (t + 1 * 3600 * 1000000) with (t + 3600 * 1000000) by lia.
  by rewrite Z.div_add.
Qed.

(** What [jwt.encode] makes of the dictionary: ['exp'] and ['iat'] in whole
    seconds. *)
Lemma token_dict_claims rnd exp iat :
  ∃ claims,
    jwt_payload (token_dict rnd exp iat) = inr claims ∧
    claims !! lit "exp" = Some (JInt (timegm exp)) ∧
    claims !! lit "iat" = Some (JInt (timegm iat)).
Proof.
  exists (map_imap jwt_claim (token_dict rnd exp iat)).
  split_and!.
  - unfold jwt_payload. rewrite bool_decide_eq_true_2; [done|].
    apply set_eq. intros name. rewrite !elem_of_dom, map_lookup_imap.
    unfold token_dict.
    destruct (decide (name = lit "iss")) as [->|];
      [rewrite lookup_insert_eq; cbn; split; eauto|].
    destruct (decide (name = lit "sub")) as [->|];
      [rewrite lookup_insert_ne, lookup_insert_eq by (by vm_compute); cbn; split; eauto|].
    destruct (decide (name = lit "exp")) as [->|];
      [rewrite !lookup_insert_ne, lookup_insert_eq by (by vm_compute); cbn; split; eauto|].
    destruct (decide (name = lit "iat")) as [->|];
      [rewrite !lookup_insert_ne, lookup_singleton_eq by (by vm_compute); cbn; split; eauto|].
    rewrite !lookup_insert_ne, lookup_singleton_ne by done. cbn.
    split; by intros [? ?].
  - rewrite map_lookup_imap. unfold token_dict.
    by rewrite !lookup_insert_ne, lookup_insert_eq by (by vm_compute).
  - rewrite map_lookup_imap. unfold token_dict.
    by rewrite !lookup_insert_ne, lookup_singleton_eq by (by vm_compute).
Qed.

(** The dictionary is built when the expiry is a [datetime], and only
    then. *)
Lemma ice_token_data_in_range rnd now_exp now_iat :
  datetime_min ≤ now_exp + timedelta_hours 1 ≤ datetime_max →
  ice_token_data rnd now_exp now_iat =
    inr (token_dict rnd (now_exp + timedelta_hours 1) now_iat).
Proof.
  intros Hrange. unfold ice_token_data, datetime_add.
  by rewrite bool_decide_eq_true_2.
Qed.

Lemma ice_token_data_overflow rnd now_exp now_iat :
  ¬ (datetime_min ≤ now_exp + timedelta_hours 1 ≤ datetime_max) →
  ice_token_data rnd now_exp now_iat =
    inl (OverflowError (lit "date value out of range")).
Proof.
  intros Hrange. unfold ice_token_data, datetime_add.
  by rewrite bool_decide_eq_false_2.
Qed.

Lemma ice_token_data_inv rnd now_exp now_iat token_data :
  ice_token_data rnd now_exp now_iat = inr token_data →
  datetime_min ≤ now_exp + timedelta_hours 1 ≤ datetime_max ∧
  token_data = token_dict rnd (now_exp + timedelta_hours 1) now_iat.
Proof.
  unfold ice_token_data, datetime_add. case_bool_decide as Hrange.
  - intros Heq. split; [exact Hrange|]. congruence.
  - discriminate.
Qed.

(** The claims that get signed: ['exp'] is the first clock reading, in whole
    seconds, plus 3600, and ['iat'] is the second one, in whole seconds. *)
Lemma ice_token_claims rnd now_exp now_iat :
  datetime_min ≤ now_exp + timedelta_hours 1 ≤ datetime_max →
  ∃ token_data claims,
    ice_token_data rnd now_exp now_iat = inr token_data ∧
    jwt_payload token_data = inr claims ∧
    claims !! lit "exp" = Some (JInt (timegm now_exp + 3600)) ∧
    claims !! lit "iat" = Some (JInt (timegm now_iat)).
Proof.
  intros Hrange.
  destruct (token_dict_claims rnd (now_exp + timedelta_hours 1) now_iat)
    as (claims & Hpayload & Hexp & Hiat).
  exists (token_dict rnd (now_exp + timedelta_hours 1) now_iat), claims.
  rewrite timegm_plus_hour in Hexp.
  split; [by apply ice_token_data_in_range|].
  split; [exact Hpayload|]. split; [exact Hexp|exact Hiat].
Qed.

(** The token's expiry is its issue time plus 3600 exactly when the two
    clock readings fall in the same second. *)
Lemma ice_token_expiry_exact rnd now_exp now_iat token_data claims exp iat :
  ice_token_data rnd now_exp now_iat = inr token_data →
  jwt_payload token_data = inr claims →
  claims !! lit "exp" = Some (JInt exp) →
  claims !! lit "iat" = Some (JInt iat) →
  exp = iat + 3600 ↔ timegm now_exp = timegm now_iat.
Proof.
  intros [Hrange ->]%ice_token_data_inv.
  destruct (token_dict_claims rnd (now_exp + timedelta_hours 1) now_iat)
    as (claims' & -> & Hexp & Hiat).
  rewrite timegm_plus_hour in Hexp.
  intros Heq. assert (claims' = claims) as -> by congruence.
  rewrite Hexp, Hiat. intros [= <-] [= <-]. lia.
Qed.

(** C1, where the code departs from it. With the first clock reading at
    2024-01-01 00:00:00.999999 and the second at 00:00:01.000000, the token
    [get_ice_token] signs has exp = 1704070800 and iat = 1704067201: the
    expiry is 3599 seconds after the issue time, not 3600. *)
Theorem ice_token_expiry_drifts
    (hs256 : gmap str json → str → exception + str) environ self :
  ∃ token_data claims secret,
    ice_token_data 0 1704067200999999 1704067201000000 = inr token_data ∧
    jwt_payload token_data = inr claims ∧
    claims !! lit "exp" = Some (JInt 1704070800) ∧
    claims !! lit "iat" = Some (JInt 1704067201) ∧
    1704070800 = 1704067201 + 3599 ∧
    get_ice_token hs256 environ 0 1704067200999999 1704067201000000 self =
      match hs256 claims secret with
      | inr token =>
          inr (JObj {[ lit "token" := JStr token; lit "ice_servers" := ice_servers ]})
      | inl e => inl e
      end.
Proof.
  destruct (ice_token_claims 0 1704067200999999 1704067201000000)
    as (token_data & claims & Hdata & Hpayload & Hexp & Hiat).
  { unfold datetime_min, datetime_max, timedelta_hours. lia. }
  exists token_data, claims. eexists.
  split; [exact Hdata|]. split; [exact Hpayload|].
  split; [exact Hexp|]. split; [exact Hiat|]. split; [reflexivity|].
  unfold get_ice_token, jwt_encode. rewrite Hdata, Hpayload. reflexivity.
Qed.

Lemma step_speech_region o self : speech_region (step o self).1 = speech_region self.
Proof.
  destruct o as [request rnd now|request|request]; cbn.
  - by destruct (connect_cases request rnd now self)
      as [[-> _]|(c & s & b & -> & _)].
  - by destruct (speak_cases request self)
      as [[-> _]|(d & k & record & _ & _ & _ & -> & _)].
  - by destruct (disconnect_cases request self)
      as [[-> _]|(d & k & record & _ & _ & _ & -> & _)].
Qed.

Lemma exec_speech_region ops self : speech_region (exec ops self) = speech_region self.
Proof.
  induction ops as [|o ops IH] using rev_ind; [done|].
  by rewrite exec_snoc, step_speech_region.
Qed.

(** C6. Whenever [get_speech_token] succeeds, on a service created from the
    environment and after any session requests, its result is exactly the
    token string the speech configuration returned, the configured region,
    which is "westus2" when SPEECH_REGION is unset, and expires_in = 3600. *)
Theorem speech_token_contents {config_t}
    (SpeechConfig : option str → str → exception + config_t)
    (get_property : config_t → exception + str) environ ops result :
  let self := exec ops (AvatarService_init environ) in
  let region :=
    match environ !! lit "SPEECH_REGION" with
    | Some r => r
    | None => lit "westus2"
    end in
  get_speech_token SpeechConfig get_property self = inr result →
  ∃ subscription config auth_token,
    SpeechConfig subscription region = inr config ∧
    get_property config = inr auth_token ∧
    result = JObj {[ lit "token" := JStr auth_token;
                     lit "region" := JStr region;
                     lit "expires_in" := JInt 3600 ]}.
Proof.
  cbv zeta. unfold get_speech_token. rewrite exec_speech_region. cbn.
  set (region := match environ !! lit "SPEECH_REGION" with
                 | Some r => r | None => lit "westus2" end).
  set (key := speech_key _).
  intros H.
  assert (∃ subscription config,
            SpeechConfig subscription region = inr config ∧
            match get_property config with
            | inr auth_token =>
                inr (JObj {[ lit "token" := JStr auth_token;
                             lit "region" := JStr region;
                             lit "expires_in" := JInt 3600 ]})
            | inl e => inl e
            end = inr result) as (subscription & config & Hconfig & Hresult).
  { destruct key as [[|c key]|].
    - destruct (SpeechConfig None region) as [e|config] eqn:E; [done|]. eauto.
    - destruct (SpeechConfig (Some (c :: key)) region) as [e|config] eqn:E; [done|].
      eauto.
    - destruct (SpeechConfig None region) as [e|config] eqn:E; [done|]. eauto. }
  exists subscription, config.
  destruct (get_property config) as [e|auth_token]; [done|].
  exists auth_token. split_and!; [done..|]. congruence.
Qed.

(** ** The claims on concrete requests *)

Example session_id_text : session_id = lit "00000000-0000-4000-8000-000000000000".
Proof. reflexivity. Qed.

Lemma connect_lisa_defaults :
  status (handle_avatar_connect connect_lisa 0 1704067200000000
            (AvatarService_init ∅)).2 = 200 ∧
  body (handle_avatar_connect connect_lisa 0 1704067200000000
          (AvatarService_init ∅)).2 =
    JObj {[ lit "connection_id" := JStr session_id;
            lit "character" := JStr (lit "lisa");
            lit "style" := JStr (lit "casual-sitting");
            lit "background" := JStr (lit "#FFFFFF");
            lit "status" := JStr (lit "connected") ]}.
Proof.
  destruct (connect_object_succeeds connect_lisa
              (items [("character"%string, JStr (lit "lisa"))])
              0 1704067200000000 (AvatarService_init ∅) eq_refl)
    as (Hstatus & Hbody & _).
  split; [exact Hstatus|exact Hbody].
Defined.

(** A body that parses to an array is answered 500. *)
Lemma connect_array_fails :
  request_json connect_array = inr (JArr []) ∧
  status (handle_avatar_connect connect_array 0 1704067200000000
            (AvatarService_init ∅)).2 = 500.
Proof. split; reflexivity. Qed.

Lemma speak_empty_body_invalid :
  handle_avatar_speak (post (JObj ∅)) one_session =
    (one_session,
     json_response (JObj {[ lit "error" := JStr (lit "Invalid connection") ]}) 400).
Proof.
  apply (speak_unknown_connection (post (JObj ∅)) JNull one_session).
  - reflexivity.
  - left. reflexivity.
Defined.

(** A connection_id that is an array is in no registry, and the speak
    request is answered 500. *)
Lemma speak_list_id_fails :
  active_connections (AvatarService_init ∅) = ∅ ∧
  requested_id speak_list_id = inr (JArr [JInt 1]) ∧
  status (handle_avatar_speak speak_list_id (AvatarService_init ∅)).2 = 500.
Proof. split_and!; reflexivity. Qed.

Lemma one_session_reachable : reachable one_session.
Proof. apply reachable_step, reachable_init. Defined.

Lemma one_session_has_id : is_Some (active_connections one_session !! session_id).
Proof. vm_compute. eexists. reflexivity. Defined.

Lemma speak_blank_rejected :
  handle_avatar_speak speak_blank one_session =
    (one_session,
     json_response (JObj {[ lit "error" := JStr (lit "No text provided") ]}) 400).
Proof.
  refine (proj1 (speak_blank_text speak_blank
                   (items [("connection_id"%string, JStr session_id);
                           ("text"%string, JStr (lit "  "))])
                   session_id (lit "  ") one_session
                   one_session_reachable eq_refl _ one_session_has_id _ _));
    reflexivity.
Defined.

Lemma disconnect_twice_then_speak :
  (handle_avatar_disconnect disconnect_session one_session).2 =
    json_response (JObj {[ lit "status" := JStr (lit "disconnected") ]}) 200 ∧
  active_connections (handle_avatar_disconnect disconnect_session one_session).1
    !! session_id = None ∧
  (handle_avatar_disconnect disconnect_session
     (handle_avatar_disconnect disconnect_session one_session).1).2 =
    json_response (JObj {[ lit "error" := JStr (lit "Connection not found") ]}) 404 ∧
  (handle_avatar_speak speak_hello
     (handle_avatar_disconnect disconnect_session one_session).1).2 =
    json_response (JObj {[ lit "error" := JStr (lit "Invalid connection") ]}) 400.
Proof.
  apply (disconnect_is_final one_session session_id
           disconnect_session disconnect_session speak_hello).
  - exact one_session_reachable.
  - exact one_session_has_id.
  - reflexivity.
  - reflexivity.
  - reflexivity.
Defined.

Lemma speech_token_default_region :
  ∃ subscription config auth_token,
    sdk_config subscription (lit "westus2") = inr config ∧
    sdk_token config = inr auth_token ∧
    JObj {[ lit "token" := JStr (lit "t0");
            lit "region" := JStr (lit "westus2");
            lit "expires_in" := JInt 3600 ]} =
    JObj {[ lit "token" := JStr auth_token;
            lit "region" := JStr (lit "westus2");
            lit "expires_in" := JInt 3600 ]}.
Proof.
  exact (speech_token_contents sdk_config sdk_token ∅ []
           (JObj {[ lit "token" := JStr (lit "t0");
                    lit "region" := JStr (lit "westus2");
                    lit "expires_in" := JInt 3600 ]})
           eq_refl).
Defined.

Lemma speak_hello_sets_flag :
  ∃ k record record',
    requested_id speak_hello = inr (JStr k) ∧
    active_connections one_session !! k = Some record ∧
    active_connections (handle_avatar_speak speak_hello one_session).1 !! k
      = Some record' ∧
    record' !! lit "speaking" = Some (PJson (JBool true)) ∧
    (∀ field, field ≠ lit "speaking" → record' !! field = record !! field) ∧
    (∀ k', k' ≠ k →
       active_connections (handle_avatar_speak speak_hello one_session).1 !! k'
       = active_connections one_session !! k').
Proof.
  apply (speak_only_sets_speaking speak_hello one_session). reflexivity.
Defined.

Lemma speak_hello_default_voice :
  ∃ answer,
    body (handle_avatar_speak speak_hello one_session).2 = JObj answer ∧
    (items [("connection_id"%string, JStr session_id);
            ("text"%string, JStr (lit "hello"))] !! lit "voice" = None →
       answer !! lit "voice" = Some (JStr (lit "en-US-AriaNeural"))) ∧
    (∀ voice,
       items [("connection_id"%string, JStr session_id);
              ("text"%string, JStr (lit "hello"))] !! lit "voice" = Some voice →
       answer !! lit "voice" = Some voice).
Proof.
  apply (speak_voice speak_hello _ one_session); reflexivity.
Defined.

Lemma disconnect_empty_body_not_found :
  handle_avatar_disconnect (post (JObj ∅)) one_session =
    (one_session,
     json_response (JObj {[ lit "error" := JStr (lit "Connection not found") ]}) 404).
Proof.
  apply (disconnect_without_id (post (JObj ∅)) ∅ one_session).
  - reflexivity.
  - left. reflexivity.
Defined.

(** A body that parses to an array has no connection_id field, and the
    disconnect request is answered 500, not 404. *)
Lemma disconnect_array_body_fails :
  request_json connect_array = inr (JArr []) ∧
  status (handle_avatar_disconnect connect_array (AvatarService_init ∅)).2 = 500.
Proof. split; reflexivity. Qed.

(** * Further properties *)

(** ** Requests the handlers cannot read *)

(** X1. When [request.json()] raises, each session handler answers 500 with
    the exception's message under "error" and leaves the service as it
    was. *)
Theorem unreadable_body_500 o e self :
  request_json (op_request o) = inl e →
  step o self = (self, error_500 e).
Proof.
  intros Hreq. destruct o as [request rnd now|request|request]; cbn in *;
    run_handler; by rewrite Hreq.
Qed.

(** X2. When the body parses to anything but an object, each session handler
    answers 500 with the message of the [AttributeError] that [data.get]
    raises, and leaves the service as it was. *)
Theorem non_object_body_500 o data self :
  request_json (op_request o) = inr data →
  (∀ d, data ≠ JObj d) →
  step o self = (self, error_500 (no_attribute data "get")).
Proof.
  intros Hreq Hdata.
  destruct o as [request rnd now|request|request]; cbn in *;
    run_handler; rewrite Hreq; destruct data; try done; by destruct (Hdata d).
Qed.

(** X3. A speak request that names a session of the registry and whose text
    is not a string (null, a number, an array, ...) is answered 500, and the
    session's speaking flag is not touched. *)
Theorem speak_text_not_str_500 request d k text self :
  reachable self →
  request_json request = inr (JObj d) →
  d !! lit "connection_id" = Some (JStr k) →
  is_Some (active_connections self !! k) →
  d !! lit "text" = Some text →
  (∀ s, text ≠ JStr s) →
  handle_avatar_speak request self = (self, error_500 (no_attribute text "strip")).
Proof.
  intros Hreach Hreq Hcid [record Hk] Htext Hstr.
  destruct (reachable_well_formed _ Hreach _ _ Hk) as [Hne _].
  run_handler. rewrite Hreq. cbn. rewrite Hcid, Htext.
  destruct k as [|c k]; [done|]. cbn. rewrite Hk. cbn.
  destruct text; try done. by destruct (Hstr s).
Qed.

(** X4. A speak or disconnect request whose connection_id is a non-empty
    array or a non-empty object is answered 500 with the message of the
    [TypeError] that hashing the identifier raises, and the service is
    unchanged. *)
Theorem unhashable_id_500 request connection_id self :
  requested_id request = inr connection_id →
  truthy connection_id = true →
  (∃ l, connection_id = JArr l) ∨ (∃ d, connection_id = JObj d) →
  handle_avatar_speak request self = (self, error_500 (unhashable connection_id)) ∧
  handle_avatar_disconnect request self = (self, error_500 (unhashable connection_id)).
Proof.
  intros (d & Hreq & Hcid)%requested_id_inv Ht Hkind.
  unfold dict_get in Hcid.
  split; run_handler; rewrite Hreq; cbn; rewrite Hcid, Ht; cbn;
    by destruct Hkind as [[l ->]|[d' ->]].
Qed.

(** X5. A disconnect request whose connection_id is missing, falsy, or a
    string, number or boolean that is not a key of the registry is answered
    404 "Connection not found", and the service is unchanged. *)
Theorem disconnect_unknown_404 request connection_id self :
  requested_id request = inr connection_id →
  truthy connection_id = false ∨
    contains (active_connections self) connection_id = inr false →
  handle_avatar_disconnect request self =
    (self, json_response (JObj {[ lit "error" := JStr (lit "Connection not found") ]}) 404).
Proof.
  intros (d & Hreq & Hcid)%requested_id_inv Hbad.
  run_handler. rewrite Hreq. cbn. unfold dict_get in Hcid. rewrite Hcid.
  destruct (truthy connection_id) eqn:Ht; cbn; [|done].
  destruct Hbad as [?| ->]; done.
Qed.

(** ** What every answer looks like *)

Ltac failed :=
  right; cbn; split_and!;
    [done | rewrite !elem_of_cons; auto | done | by eexists].

(** Each session handler either answers 200, or leaves the service alone and
    answers with one of its error codes and a body that holds "error"
    only. *)
Lemma step_outcome o self :
  let r := step o self in
  status r.2 = 200 ∨
  (r.1 = self ∧ status r.2 ∈ statuses o ∧ status r.2 ≠ 200 ∧
   ∃ msg, body r.2 = JObj {[ lit "error" := JStr msg ]}).
Proof.
  cbv zeta. destruct o as [request rnd now|request|request]; cbn [step statuses].
  - run_handler.
    destruct (request_json request) as [e|data]; [failed|].
    destruct data as [| | | | |l|d]; try failed. by left.
  - run_handler.
    destruct (request_json request) as [e|data]; [failed|].
    destruct data as [| | | | |l|d]; try failed.
    cbn.
    destruct (d !! lit "connection_id") as [cid|]; [|failed].
    destruct (truthy cid); cbn; [|failed].
    destruct cid as [| | | |k|l|d']; cbn; try failed.
    destruct (active_connections self !! k) as [record|] eqn:Hk; cbn; [|failed].
    destruct (match d !! lit "text" with Some v => v | None => JStr [] end)
      as [| | | |t| |]; cbn; try failed.
    destruct (strip t); cbn; [failed|]. rewrite Hk. by left.
  - run_handler.
    destruct (request_json request) as [e|data]; [failed|].
    destruct data as [| | | | |l|d]; try failed.
    cbn.
    destruct (d !! lit "connection_id") as [cid|]; [|failed].
    destruct (truthy cid); cbn; [|failed].
    destruct cid as [| | | |k|l|d']; cbn; try failed.
    destruct (active_connections self !! k) as [record|] eqn:Hk; cbn; [|failed].
    unfold delitem, getitem. rewrite Hk. by left.
Qed.

(** What a cancelled speak handler leaves: the service of the handler that
    runs to its end, and no response where that one answers 200. *)
Lemma speak_cancelled_spec request self :
  handle_avatar_speak_cancelled request self =
    ((handle_avatar_speak request self).1,
     if bool_decide (status (handle_avatar_speak request self).2 = 200)
     then None else Some (handle_avatar_speak request self).2).
Proof.
  unfold handle_avatar_speak_cancelled. run_handler.
  destruct (request_json request) as [e|data]; [done|].
  destruct data as [| | | | |l|d]; try done.
  cbn.
  destruct (d !! lit "connection_id") as [cid|]; [|done].
  destruct (truthy cid); cbn; [|done].
  destruct cid as [| | | |k|l|d']; cbn; try done.
  destruct (active_connections self !! k) as [record|] eqn:Hk; cbn; [|done].
  destruct (match d !! lit "text" with Some v => v | None => JStr [] end)
    as [| | | |t| |]; cbn; try done.
  destruct (strip t); cbn; [done|]. by rewrite Hk.
Qed.

(** The services that exist are the same with cancellation: a cancelled
    speak handler leaves a reachable service. *)
Lemma reachable_cancelled request self :
  reachable self → reachable (handle_avatar_speak_cancelled request self).1.
Proof.
  intros Hreach. rewrite speak_cancelled_spec. cbn.
  apply (reachable_step (Speak request) self Hreach).
Qed.

(** X6. A session request that is answered with a status other than 200 has
    changed nothing, and its answer is a JSON object with the single field
    "error", a string.  This holds with handlers that are cancelled: a
    handler cancelled while it reads the request has done nothing, and a
    speak handler cancelled while it sleeps gives no answer where it has set
    the flag. *)
Theorem failed_request_changes_nothing o f self response :
  (served o f self).2 = Some response →
  status response ≠ 200 →
  (served o f self).1 = self ∧
  ∃ msg, body response = JObj {[ lit "error" := JStr msg ]}.
Proof.
  intros Hresponse Hfail.
  assert ((served o f self).1 = (step o self).1 ∧
          response = (step o self).2) as [-> ->].
  { destruct f, o as [request rnd now|request|request]; cbn in *;
      try discriminate Hresponse; try (split; congruence).
    rewrite speak_cancelled_spec in Hresponse |- *. cbn in *.
    split; [done|]. case_bool_decide; congruence. }
  by destruct (step_outcome o self) as [?|(? & _ & _ & ?)].
Qed.


(** X7. Connect answers 200 or 500, speak 200, 400 or 500, and disconnect
    200, 404 or 500; no session handler answers with another code. *)
Theorem status_codes o self : status (step o self).2 ∈ statuses o.
Proof.
  destruct (step_outcome o self) as [->|(_ & ? & _)]; [|done].
  destruct o; cbn; rewrite !elem_of_cons; auto.
Qed.

(** ** Speaking *)

(** What a speak request that is answered 200 was, and what it did. *)
Lemma speak_success_inv request self :
  status (handle_avatar_speak request self).2 = 200 →
  ∃ d k record text,
    request_json request = inr (JObj d) ∧
    d !! lit "connection_id" = Some (JStr k) ∧ k ≠ [] ∧
    active_connections self !! k = Some record ∧
    d !! lit "text" = Some (JStr text) ∧
    forallb isspace text = false ∧
    handle_avatar_speak request self =
      (set_active_connections
         (insert k (<[ lit "speaking" := PJson (JBool true) ]> record)) self,
       json_response
         (JObj {[ lit "connection_id" := JStr k;
                  lit "text" := JStr text;
                  lit "voice" := dict_get d "voice" (JStr (lit "en-US-AriaNeural"));
                  lit "status" := JStr (lit "speaking") ]})
         200).
Proof.
  run_handler.
  destruct (request_json request) as [e|data] eqn:Hreq; [done|].
  destruct data as [| | | | |l|d]; try done.
  cbn.
  destruct (d !! lit "connection_id") as [cid|] eqn:Hcid; [|done].
  destruct (truthy cid) eqn:Ht; cbn; [|done].
  destruct cid as [| | | |k|l|d']; cbn; try done.
  destruct (active_connections self !! k) as [record|] eqn:Hk; cbn; [|done].
  destruct (d !! lit "text") as [text|] eqn:Htext; cbn; [|done].
  destruct text as [| | | |t| |]; cbn; try done.
  destruct (strip t) as [|c r] eqn:Hs; cbn; [done|].
  rewrite Hk. cbn. intros _. exists d, k, record, t.
  split_and!; try done.
  - by destruct k.
  - destruct (forallb isspace t) eqn:Hb; [|done].
    apply strip_nil in Hb. congruence.
Qed.

(** A speak request that names a record under a non-empty key and brings a
    text with a character that is not whitespace sets the flag and answers
    200. *)
Lemma speak_on_session request d k record text self :
  request_json request = inr (JObj d) →
  d !! lit "connection_id" = Some (JStr k) → k ≠ [] →
  active_connections self !! k = Some record →
  d !! lit "text" = Some (JStr text) →
  forallb isspace text = false →
  handle_avatar_speak request self =
    (set_active_connections
       (insert k (<[ lit "speaking" := PJson (JBool true) ]> record)) self,
     json_response
       (JObj {[ lit "connection_id" := JStr k;
                lit "text" := JStr text;
                lit "voice" := dict_get d "voice" (JStr (lit "en-US-AriaNeural"));
                lit "status" := JStr (lit "speaking") ]})
       200).
Proof.
  intros Hreq Hcid Hne Hk Htext Hsome.
  destruct (strip_cons _ Hsome) as (c & r & Hstrip).
  run_handler. rewrite Hreq. cbn. rewrite Hcid.
  destruct k as [|c0 k]; [done|]. cbn. rewrite Hk. cbn.
  rewrite Htext. cbn. rewrite Hstrip. cbn. by rewrite Hk.
Qed.

(** X8. On a reachable service, a speak request with a JSON object body is
    answered 200 exactly when its connection_id is a string that is a key of
    the registry and its text is a string with at least one character that
    is not whitespace. *)
Theorem speak_succeeds_iff request d self :
  reachable self →
  request_json request = inr (JObj d) →
  status (handle_avatar_speak request self).2 = 200 ↔
  ∃ k text,
    d !! lit "connection_id" = Some (JStr k) ∧
    is_Some (active_connections self !! k) ∧
    d !! lit "text" = Some (JStr text) ∧
    forallb isspace text = false.
Proof.
  intros Hreach Hreq. split.
  - intros (d' & k & record & text & Hreq' & Hcid & _ & Hk & Htext & Hsome & _)%speak_success_inv.
    assert (d' = d) as -> by congruence.
    exists k, text. by split_and!.
  - intros (k & text & Hcid & Hk & Htext & Hsome).
    by eapply speak_succeeds.
Qed.

(** X9. The answer to a speak request that succeeds repeats the
    connection_id and the text exactly as they were sent, the text with its
    leading and trailing whitespace, next to the voice and the status
    "speaking". *)
Theorem speak_echo request d self :
  request_json request = inr (JObj d) →
  status (handle_avatar_speak request self).2 = 200 →
  ∃ k text,
    d !! lit "connection_id" = Some (JStr k) ∧
    d !! lit "text" = Some (JStr text) ∧
    body (handle_avatar_speak request self).2 =
      JObj {[ lit "connection_id" := JStr k;
              lit "text" := JStr text;
              lit "voice" := dict_get d "voice" (JStr (lit "en-US-AriaNeural"));
              lit "status" := JStr (lit "speaking") ]}.
Proof.
  intros Hreq (d' & k & record & text & Hreq' & Hcid & _ & _ & Htext & _ & ->)%speak_success_inv.
  assert (d' = d) as -> by congruence.
  by exists k, text.
Qed.

(** X10. Speaking is idempotent: after a speak request that succeeded, the
    same request succeeds again with the same answer and leaves the service
    as the first one left it. *)
Theorem speak_idempotent request self :
  status (handle_avatar_speak request self).2 = 200 →
  handle_avatar_speak request (handle_avatar_speak request self).1 =
    handle_avatar_speak request self.
Proof.
  intros (d & k & record & text & Hreq & Hcid & Hne & Hk & Htext & Hsome & Hrun)%speak_success_inv.
  rewrite Hrun. cbn.
  rewrite (speak_on_session request d k
             (<[ lit "speaking" := PJson (JBool true) ]> record) text);
    try done; [|cbn; apply lookup_insert_eq].
  f_equal. unfold set_active_connections. cbn.
  by rewrite !insert_insert_eq.
Qed.

(** X11. The identifier a connect request returns is good for speaking: on
    the service the connect leaves, a speak request that names it and brings
    a text that is not blank is answered 200, and the record then has the
    configuration the connect stored and its speaking flag set. *)
Theorem connect_then_speak connect speak d d' text rnd now self :
  request_json connect = inr (JObj d) →
  request_json speak = inr (JObj d') →
  d' !! lit "connection_id" = Some (JStr (str_uuid (uuid4 rnd))) →
  d' !! lit "text" = Some (JStr text) →
  forallb isspace text = false →
  let connected := (handle_avatar_connect connect rnd now self).1 in
  let r := handle_avatar_speak speak connected in
  status r.2 = 200 ∧
  active_connections r.1 !! str_uuid (uuid4 rnd) =
    Some (<[ lit "speaking" := PJson (JBool true) ]>
            (connection_info (resolved d "character" "lisa")
               (resolved d "style" "casual-sitting")
               (resolved d "background" "#FFFFFF") now)).
Proof.
  intros Hreq Hreq' Hcid Htext Hsome. cbv zeta.
  rewrite (connect_object connect d) by done. cbn.
  set (info := connection_info _ _ _ _).
  set (connected := set_active_connections _ self).
  assert (active_connections connected !! str_uuid (uuid4 rnd) = Some info) as Hk
    by (cbn; apply lookup_insert_eq).
  rewrite (speak_on_session speak d' _ info text connected Hreq' Hcid
             (str_uuid_nonempty _) Hk Htext Hsome).
  cbn. split; [done|]. apply lookup_insert_eq.
Qed.

(** ** The registry under connect and disconnect *)

(** X12. A connect request with a JSON object body leaves every other
    session as it was.  It makes the registry one record larger, unless the
    identifier it generates is a key already: then the record under that key
    is replaced and the size stays. *)
Theorem connect_frame request d rnd now self :
  request_json request = inr (JObj d) →
  let r := handle_avatar_connect request rnd now self in
  (∀ k, k ≠ str_uuid (uuid4 rnd) →
        active_connections r.1 !! k = active_connections self !! k) ∧
  size (active_connections r.1) =
    match active_connections self !! str_uuid (uuid4 rnd) with
    | Some _ => size (active_connections self)
    | None => S (size (active_connections self))
    end.
Proof.
  intros Hreq. cbv zeta. rewrite (connect_object request d) by done. cbn.
  split.
  - intros k Hk. by apply lookup_insert_ne.
  - rewrite map_size_insert. by destruct (active_connections self !! _).
Qed.

(** X13. A disconnect request that is answered 200 named a string that was
    a key of the registry; it deletes that record and no other, so the
    registry is one record smaller. *)
Theorem disconnect_frame request self :
  let r := handle_avatar_disconnect request self in
  status r.2 = 200 →
  ∃ k,
    requested_id request = inr (JStr k) ∧
    is_Some (active_connections self !! k) ∧
    active_connections r.1 = delete k (active_connections self) ∧
    S (size (active_connections r.1)) = size (active_connections self) ∧
    (∀ k', k' ≠ k → active_connections r.1 !! k' = active_connections self !! k').
Proof.
  cbv zeta. intros Hok.
  destruct (disconnect_cases request self)
    as [[_ Hst]|(d & k & record & Hreq & Hcid & Hk & Hself & _)]; [done|].
  exists k. rewrite Hself. cbn. split_and!.
  - unfold requested_id. rewrite Hreq. cbn. unfold dict_get. by rewrite Hcid.
  - eauto.
  - done.
  - rewrite map_size_delete, Hk.
    assert (size (active_connections self) ≠ 0%nat)
      by (apply map_size_ne_0_lookup; eauto).
    lia.
  - intros k' Hk'. by apply lookup_delete_ne.
Qed.

(** X14. Connect and disconnect undo each other: when the identifier a
    connect generates was not a key before, a disconnect of that identifier
    right after it is answered 200 and gives back the service as it was
    before the connect. *)
Theorem connect_disconnect_roundtrip connect disconnect d rnd now self :
  request_json connect = inr (JObj d) →
  active_connections self !! str_uuid (uuid4 rnd) = None →
  requested_id disconnect = inr (JStr (str_uuid (uuid4 rnd))) →
  handle_avatar_disconnect disconnect (handle_avatar_connect connect rnd now self).1 =
    (self, json_response (JObj {[ lit "status" := JStr (lit "disconnected") ]}) 200).
Proof.
  intros Hreq Hfresh (d' & Hreq' & Hcid)%requested_id_inv.
  rewrite (connect_object connect d) by done. cbn.
  pose proof (str_uuid_nonempty (uuid4 rnd)) as Hne.
  unfold dict_get in Hcid.
  run_handler. rewrite Hreq'. cbn. rewrite Hcid.
  destruct (str_uuid (uuid4 rnd)) as [|c k] eqn:Hid; [done|]. cbn.
  rewrite lookup_insert_eq. cbn. unfold delitem, getitem.
  rewrite lookup_insert_eq. cbn. f_equal.
  unfold set_active_connections. cbn.
  rewrite delete_insert_id by done. by destruct self.
Qed.

(** X15. The registry grows by connect requests only: after any sequence of
    session requests it has at most as many records more than before as
    there were connect requests. *)
Theorem registry_size_bound ops self :
  (size (active_connections (exec ops self)) ≤
     size (active_connections self) + connects ops)%nat.
Proof.
  revert self. induction ops as [|o ops IH]; intros self; [cbn; lia|].
  change (exec (o :: ops) self) with (exec ops (step o self).1).
  specialize (IH (step o self).1).
  assert (size (active_connections (step o self).1) ≤
            size (active_connections self) +
            match o with Connect _ _ _ => 1 | _ => 0 end)%nat as Hstep.
  { destruct o as [request rnd now|request|request]; cbn.
    - destruct (connect_cases request rnd now self)
        as [[-> _]|(c & s & b & -> & _)]; [lia|].
      cbn. rewrite map_size_insert.
      destruct (active_connections self !! _); cbn; lia.
    - destruct (speak_cases request self)
        as [[-> _]|(d & k & record & _ & _ & Hk & -> & _)]; [lia|].
      cbn. rewrite map_size_insert, Hk. cbn. lia.
    - destruct (disconnect_cases request self)
        as [[-> _]|(d & k & record & _ & _ & Hk & -> & _)]; [lia|].
      cbn. rewrite map_size_delete, Hk. cbn. lia. }
  destruct o; cbn [connects]; lia.
Qed.

(** ** Records over time *)

(** One request, seen from a record that is there before and after it. *)
Lemma step_record o self k record record' :
  active_connections self !! k = Some record →
  active_connections (step o self).1 !! k = Some record' →
  generated k (o, (step o self).2) = false →
  record' = record ∨ record' = <[ lit "speaking" := PJson (JBool true) ]> record.
Proof.
  intros Hk Hk' Hgen. destruct o as [request rnd now|request|request]; cbn in *.
  - unfold generated in Hgen. cbn in Hgen.
    destruct (connect_cases request rnd now self)
      as [[Hself _]|(c & s & b & Hself & Hst & Hid)];
      rewrite Hself in Hk'; [left; congruence|].
    rewrite Hst, Hid in Hgen. cbn in Hgen.
    rewrite andb_false_iff, !bool_decide_eq_false in Hgen.
    destruct Hgen as [?|Hne]; [done|].
    cbn in Hk'. rewrite lookup_insert_ne in Hk' by done. left. congruence.
  - destruct (speak_cases request self)
      as [[Hself _]|(d & k0 & record0 & _ & _ & Hk0 & Hself & _)];
      rewrite Hself in Hk'; [left; congruence|].
    cbn in Hk'. destruct (decide (k0 = k)) as [->|Hne].
    + rewrite lookup_insert_eq in Hk'. right. congruence.
    + rewrite lookup_insert_ne in Hk' by done. left. congruence.
  - destruct (disconnect_cases request self)
      as [[Hself _]|(d & k0 & record0 & _ & _ & Hk0 & Hself & _)];
      rewrite Hself in Hk'; [left; congruence|].
    cbn in Hk'. destruct (decide (k0 = k)) as [->|Hne].
    + by rewrite lookup_delete_eq in Hk'.
    + rewrite lookup_delete_ne in Hk' by done. left. congruence.
Qed.

(** X16. A record never changes behind its session's back.  Over any
    sequence of session requests in which no connect generates its
    identifier again, a record that is in the registry at the start and at
    the end is the record of the start, with at most its speaking flag set:
    character, style, background and created_at are never rewritten, and a
    speaking flag once true is not reset. *)
Theorem record_stable ops self k record record' :
  Forall (λ e, generated k e = false) (trace ops self) →
  active_connections self !! k = Some record →
  active_connections (exec ops self) !! k = Some record' →
  record' = record ∨ record' = <[ lit "speaking" := PJson (JBool true) ]> record.
Proof.
  intros Hgen Hk. revert record'.
  induction ops as [|o ops IH] using rev_ind; intros record' Hk'.
  - cbn in Hk'. left. congruence.
  - rewrite trace_snoc in Hgen. apply Forall_app in Hgen as [Hgen Hlast].
    apply Forall_cons in Hlast as [Hlast _]. cbv beta in Hlast.
    rewrite exec_snoc in Hk'.
    assert (is_Some (active_connections (exec ops self) !! k)) as [mid Hmid].
    { pose proof (step_membership o (exec ops self) k) as Hm. cbv zeta in Hm.
      destruct (proj1 Hm) as [?|[? _]]; [eauto|congruence|done]. }
    destruct (IH Hgen mid Hmid) as [->| ->];
      destruct (step_record o _ k _ record' Hmid Hk' Hlast) as [->| ->]; auto.
    right. by rewrite insert_insert_eq.
Qed.

(** X17. In every reachable service, every record of the registry holds
    JSON values under character, style and background, a [datetime] under
    created_at and a boolean under speaking. *)
Theorem record_types self k record :
  reachable self →
  active_connections self !! k = Some record →
  typed_record record.
Proof.
  intros Hreach. revert k record.
  induction Hreach as [environ|o self _ IH]; intros k record Hk.
  - cbn in Hk. by rewrite lookup_empty in Hk.
  - destruct (decide (generated k (o, (step o self).2) = true)) as [Hgen|Hgen].
    + destruct o as [request rnd now|request|request]; try done.
      unfold generated in Hgen. cbn in Hgen, Hk.
      destruct (connect_cases request rnd now self)
        as [[_ Hst]|(c & s & b & Hself & Hst & Hid)].
      { by rewrite bool_decide_eq_false_2 in Hgen. }
      rewrite Hst, Hid in Hgen. cbn in Hgen.
      apply andb_true_iff in Hgen as [_ Hgen%bool_decide_eq_true].
      rewrite Hself in Hk. cbn in Hk. rewrite Hgen, lookup_insert_eq in Hk.
      injection Hk as <-. unfold typed_record, connection_info.
      split_and!; eexists;
        rewrite ?lookup_insert_ne by (by vm_compute);
        first [apply lookup_insert_eq | apply lookup_singleton_eq].
    + apply not_true_is_false in Hgen.
      assert (is_Some (active_connections self !! k)) as [old Hold].
      { pose proof (step_membership o self k) as Hm. cbv zeta in Hm.
        destruct (proj1 Hm) as [?|[? _]]; [eauto|congruence|done]. }
      specialize (IH k old Hold).
      destruct (step_record o self k old record Hold Hk Hgen) as [->| ->]; [done|].
      destruct IH as (Hc & Hs & Hb & Ht & _). unfold typed_record.
      rewrite !lookup_insert_ne by (by vm_compute).
      split_and!; try done. eexists. apply lookup_insert_eq.
Qed.

Lemma step_configuration o self :
  speech_key (step o self).1 = speech_key self ∧
  speech_region (step o self).1 = speech_region self ∧
  speech_private_endpoint (step o self).1 = speech_private_endpoint self.
Proof.
  destruct o as [request rnd now|request|request]; cbn.
  - by destruct (connect_cases request rnd now self)
      as [[-> _]|(c & s & b & -> & _)].
  - by destruct (speak_cases request self)
      as [[-> _]|(d & k & record & _ & _ & _ & -> & _)].
  - by destruct (disconnect_cases request self)
      as [[-> _]|(d & k & record & _ & _ & _ & -> & _)].
Qed.

(** X18. No session request touches the configuration: after any sequence
    of them the speech key, the speech region and the private endpoint are
    what [__init__] read from the environment. *)
Theorem configuration_immutable environ ops :
  let self := exec ops (AvatarService_init environ) in
  speech_key self = environ !! lit "SPEECH_KEY" ∧
  speech_region self =
    match environ !! lit "SPEECH_REGION" with
    | Some region => region
    | None => lit "westus2"
    end ∧
  speech_private_endpoint self = environ !! lit "SPEECH_PRIVATE_ENDPOINT".
Proof.
  cbv zeta. induction ops as [|o ops IH] using rev_ind; [done|].
  rewrite exec_snoc.
  destruct (step_configuration o (exec ops (AvatarService_init environ)))
    as (-> & -> & ->). done.
Qed.

(** ** Tokens, further *)

Arguments handle_speech_token {config_t} SpeechConfig get_property request self.
Arguments call {config_t} SpeechConfig get_property hs256 handler request w.

(** X19. An exception of the speech SDK, from the [SpeechConfig] constructor
    or from [get_property], leaves [get_speech_token] as it was raised, and
    [handle_speech_token] answers 500 with its message; the service is
    unchanged. *)
Theorem speech_token_failure {config_t}
    (SpeechConfig : option str → str → exception + config_t)
    (get_property : config_t → exception + str) request self e :
  SpeechConfig (subscription self) (speech_region self) = inl e ∨
    (∃ config, SpeechConfig (subscription self) (speech_region self) = inr config ∧
               get_property config = inl e) →
  get_speech_token SpeechConfig get_property self = inl e ∧
  handle_speech_token SpeechConfig get_property request self = (self, error_500 e).
Proof.
  intros Hsdk.
  assert (get_speech_token SpeechConfig get_property self = inl e) as Hraise.
  { unfold get_speech_token, subscription in *.
    destruct (speech_key self) as [[|c key]|];
      destruct Hsdk as [->|(config & -> & ->)]; done. }
  split; [done|]. unfold handle_speech_token. by rewrite Hraise.
Qed.

(** X20. An empty SPEECH_KEY counts as none: the speech token is asked for
    without a subscription key, exactly as when the variable is unset. *)
Theorem speech_token_empty_key {config_t}
    (SpeechConfig : option str → str → exception + config_t)
    (get_property : config_t → exception + str) environ :
  get_speech_token SpeechConfig get_property
    (AvatarService_init (<[ lit "SPEECH_KEY" := [] ]> environ)) =
  get_speech_token SpeechConfig get_property
    (AvatarService_init (delete (lit "SPEECH_KEY") environ)).
Proof.
  assert (lit "SPEECH_KEY" ≠ lit "SPEECH_REGION") by (by vm_compute).
  unfold get_speech_token, AvatarService_init. cbn.
  by rewrite lookup_insert_eq, lookup_delete_eq, lookup_insert_ne, lookup_delete_ne.
Qed.

(** The claims of the ICE token, in full. *)
Lemma token_dict_payload (rnd : N) (exp iat : Z) :
  jwt_payload (token_dict rnd exp iat) =
    inr {[ lit "iss" := JStr (lit "avatar-service");
           lit "sub" := JStr (str_uuid (uuid4 rnd));
           lit "exp" := JInt (timegm exp);
           lit "iat" := JInt (timegm iat) ]}.
Proof.
  destruct (token_dict_claims rnd exp iat) as (claims & Hpayload & _).
  rewrite Hpayload. f_equal.
  unfold jwt_payload in Hpayload.
  destruct (bool_decide _) in Hpayload; [|discriminate Hpayload].
  pose proof (f_equal (λ x : exception + gmap str json,
                         match x with inr c => c | inl _ => ∅ end) Hpayload)
    as Hclaims.
  cbv beta iota in Hclaims. rewrite <- Hclaims. clear Hclaims Hpayload.
  apply map_eq. intros name. rewrite map_lookup_imap. unfold token_dict.
  destruct (decide (name = lit "iss")) as [->|];
    [by rewrite !lookup_insert_eq|].
  destruct (decide (name = lit "sub")) as [->|];
    [by rewrite !lookup_insert_ne, !lookup_insert_eq by (by vm_compute)|].
  destruct (decide (name = lit "exp")) as [->|];
    [by rewrite !lookup_insert_ne, !lookup_insert_eq by (by vm_compute)|].
  destruct (decide (name = lit "iat")) as [->|];
    [by rewrite !lookup_insert_ne, !lookup_singleton_eq by (by vm_compute)|].
  by rewrite !lookup_insert_ne, !lookup_singleton_ne by done.
Qed.

(** X21. When the first clock reading plus one hour is a [datetime], the ICE
    token is signed over exactly four claims: the issuer "avatar-service", a
    fresh UUID as subject, the expiry (the first reading in whole seconds,
    plus 3600) and the issue time (the second reading in whole seconds).
    The key is ICE_TOKEN_SECRET when that is set, even to the empty string,
    and "avatar-service-secret" otherwise; the result pairs the signed token
    with the one STUN server, and a failure of the signer is passed on.  In
    the last hour of the year 9999 the sum overflows: [OverflowError] is
    raised and nothing is signed. *)
Theorem ice_token_contents (hs256 : gmap str json → str → exception + str)
    (environ : gmap str str) (rnd : N) (now_exp now_iat : Z)
    (self : AvatarService) :
  get_ice_token hs256 environ rnd now_exp now_iat self =
    if bool_decide (datetime_min ≤ now_exp + timedelta_hours 1 ≤ datetime_max)
    then
      match
        hs256
          {[ lit "iss" := JStr (lit "avatar-service");
             lit "sub" := JStr (str_uuid (uuid4 rnd));
             lit "exp" := JInt (timegm now_exp + 3600);
             lit "iat" := JInt (timegm now_iat) ]}
          (match environ !! lit "ICE_TOKEN_SECRET" with
           | Some secret => secret
           | None => lit "avatar-service-secret"
           end)
      with
      | inr token =>
          inr (JObj {[ lit "token" := JStr token;
                       lit "ice_servers" :=
                         JArr [JObj {[ lit "urls" :=
                                         JArr [JStr (lit "stun:stun.l.google.com:19302")];
                                       lit "username" := JStr [];
                                       lit "credential" := JStr [] ]}] ]})
      | inl e => inl e
      end
    else inl (OverflowError (lit "date value out of range")).
Proof.
  unfold get_ice_token, jwt_encode. case_bool_decide as Hrange.
  - rewrite ice_token_data_in_range by exact Hrange.
    by rewrite token_dict_payload, timegm_plus_hour.
  - by rewrite ice_token_data_overflow.
Qed.

(** X22. When the first clock reading plus one hour is a [datetime], the
    clock does not run backwards between the two readings and less than a
    second passes, the expiry the token carries is 3600 or 3599 seconds
    after its issue time, and never more than 3600. *)
Theorem ice_token_window (rnd : N) (now_exp now_iat : Z) :
  datetime_min ≤ now_exp →
  now_exp + timedelta_hours 1 ≤ datetime_max →
  now_exp ≤ now_iat →
  now_iat < now_exp + 1000000 →
  ∃ token_data claims exp iat,
    ice_token_data rnd now_exp now_iat = inr token_data ∧
    jwt_payload token_data = inr claims ∧
    claims !! lit "exp" = Some (JInt exp) ∧
    claims !! lit "iat" = Some (JInt iat) ∧
    (exp = iat + 3600 ∨ exp = iat + 3599).
Proof.
  intros Hmin Hmax Hle Hlt.
  destruct (ice_token_claims rnd now_exp now_iat)
    as (token_data & claims & Hdata & Hpayload & Hexp & Hiat).
  { split; [|exact Hmax]. unfold timedelta_hours. lia. }
  exists token_data, claims, (timegm now_exp + 3600), (timegm now_iat).
  split; [exact Hdata|]. split; [exact Hpayload|].
  split; [exact Hexp|]. split; [exact Hiat|].
  unfold timegm.
  assert (now_exp / 1000000 ≤ now_iat / 1000000) by (apply Z.div_le_mono; lia).
  assert (now_iat / 1000000 ≤ (now_exp + 1 * 1000000) / 1000000)
    by (apply Z.div_le_mono; lia).
  rewrite Z.div_add in * by lia. lia.
Qed.

(** ** Routes *)

Lemma resolve_app router router' method path :
  resolve (router ++ router') method path =
    match resolve router method path with
    | Some handler => Some handler
    | None => resolve router' method path
    end.
Proof.
  induction router as [|r router IH]; cbn; [done|].
  by destruct (http_method_eqb (route_method r) method && bool_decide (route_path r = path)).
Qed.

(** X23. The routes [setup_routes] adds under GET are read-only: whatever
    the path, the handler that serves a GET request there is the speech
    token or the ICE token handler, and it returns the service as it got
    it.  Every handler that changes the registry is reached by POST only. *)
Theorem get_routes_read_only {config_t}
    (SpeechConfig : option str → str → exception + config_t)
    (get_property : config_t → exception + str)
    (hs256 : gmap str json → str → exception + str)
    router path handler request w self :
  resolve router GET path = None →
  resolve (setup_routes router) GET path = Some handler →
  (handler = H_speech_token ∨ handler = H_ice_token) ∧
  (call SpeechConfig get_property hs256 handler request w self).1 = self.
Proof.
  intros Hfree. unfold setup_routes, add_get, add_post.
  rewrite !resolve_app, Hfree. cbn.
  intros Hroute.
  assert (handler = H_speech_token ∨ handler = H_ice_token) as Hhandler.
  { repeat case_bool_decide; naive_solver. }
  split; [done|].
  destruct Hhandler as [-> | ->]; cbn.
  - unfold handle_speech_token. by destruct (get_speech_token _ _ _).
  - unfold handle_ice_token. by destruct (get_ice_token _ _ _ _ _ _).
Qed.

(** ** The shape of a connection identifier *)

Lemma hex_lookup width n i :
  (i < width)%nat →
  hex width n !! i =
    Some (hexdigit ((n / 16 ^ N.of_nat (width - 1 - i)) mod 16)%N).
Proof.
  revert n. induction width as [|w IH]; intros n Hi; [lia|].
  cbn [hex]. destruct (decide (i < w)%nat) as [Hlt|Hge].
  - rewrite lookup_app_l by (by rewrite hex_length).
    rewrite IH by done. do 3 f_equal.
    replace (S w - 1 - i)%nat with (S (w - 1 - i)) by lia.
    by rewrite Nat2N.inj_succ, N.pow_succ_r', N.Div0.div_div.
  - assert (i = w) as -> by lia.
    rewrite lookup_app_r by (rewrite hex_length; lia).
    rewrite hex_length, Nat.sub_diag. cbn [lookup list_lookup].
    replace (S w - 1 - w)%nat with 0%nat by lia.
    cbn. by rewrite N.div_1_r.
Qed.

(** The four bits of [uuid4 rnd] that hold the version are 0100. *)
Lemma uuid4_version rnd : ((uuid4 rnd / 16 ^ 19) mod 16 = 4)%N.
Proof.
  change (16 ^ 19)%N with (2 ^ 76)%N. change 16%N with (2 ^ 4)%N.
  rewrite <- N.shiftr_div_pow2, <- N.land_ones.
  apply N.bits_inj. intros i.
  rewrite N.land_spec, N.shiftr_spec'.
  unfold uuid4. cbv zeta.
  rewrite N.lor_spec, N.ldiff_spec.
  generalize (N.testbit
                (N.lor (N.ldiff (rnd mod 2 ^ 128) (N.shiftl 49152 48)) (N.shiftl 32768 48))
                (i + 76)).
  intros b.
  destruct (N.lt_ge_cases i 4) as [Hlt|Hge].
  - assert (i = 0 ∨ i = 1 ∨ i = 2 ∨ i = 3)%N as [->|[->|[->| ->]]] by lia;
      by destruct b.
  - rewrite (N.shiftl_spec_high' 4 76) by lia.
    rewrite (N.shiftl_spec_high' 61440 64) by lia.
    replace (i + 76 - 76)%N with i by lia.
    rewrite (N.bits_above_log2 4 i) by (change (N.log2 4) with 2%N; lia).
    rewrite (N.bits_above_log2 (N.ones 4) i)
      by (change (N.log2 (N.ones 4)) with 3%N; lia).
    by rewrite andb_false_r.
Qed.

(** The four bits of [uuid4 rnd] that hold the variant are 10xx. *)
Lemma uuid4_variant rnd :
  ∃ r, (r < 4)%N ∧ ((uuid4 rnd / 16 ^ 15) mod 16 = 8 + r)%N.
Proof.
  set (R := (rnd mod 2 ^ 128)%N).
  exists (N.land (N.shiftr R 60) (N.ones 2)). split.
  { rewrite N.land_ones. by apply N.mod_lt. }
  assert (N.lor 8 (N.land (N.shiftr R 60) (N.ones 2)) =
          8 + N.land (N.shiftr R 60) (N.ones 2))%N as <-.
  { assert (N.land (N.shiftr R 60) (N.ones 2) < 4)%N as Hr
      by (rewrite N.land_ones; by apply N.mod_lt).
    generalize dependent (N.land (N.shiftr R 60) (N.ones 2)). intros r Hr.
    assert (r = 0 ∨ r = 1 ∨ r = 2 ∨ r = 3)%N as [->|[->|[->| ->]]] by lia; done. }
  change (16 ^ 15)%N with (2 ^ 60)%N. change 16%N with (2 ^ 4)%N.
  rewrite <- N.shiftr_div_pow2, <- N.land_ones.
  apply N.bits_inj. intros i.
  rewrite N.lor_spec, !N.land_spec, !N.shiftr_spec'.
  unfold uuid4. cbv zeta. fold R.
  repeat (rewrite N.lor_spec || rewrite N.ldiff_spec).
  generalize (N.testbit R (i + 60)). intros b.
  destruct (N.lt_ge_cases i 4) as [Hlt|Hge].
  - assert (i = 0 ∨ i = 1 ∨ i = 2 ∨ i = 3)%N as [->|[->|[->| ->]]] by lia;
      by destruct b.
  - rewrite (N.bits_above_log2 (N.ones 4) i)
      by (change (N.log2 (N.ones 4)) with 3%N; lia).
    rewrite (N.bits_above_log2 8 i) by (change (N.log2 8) with 3%N; lia).
    rewrite (N.bits_above_log2 (N.ones 2) i)
      by (change (N.log2 (N.ones 2)) with 1%N; lia).
    by rewrite !andb_false_r.
Qed.

(** X24. A connection identifier is a version 4 UUID in its usual spelling:
    36 characters, dashes at positions 8, 13, 18 and 23, the digit 4 at
    position 14 and one of 8, 9, a, b at position 19, whatever the random
    bytes were. *)
Theorem connection_id_format rnd :
  let connection_id := str_uuid (uuid4 rnd) in
  length connection_id = 36%nat ∧
  connection_id !! 8%nat = Some 45%N ∧
  connection_id !! 13%nat = Some 45%N ∧
  connection_id !! 18%nat = Some 45%N ∧
  connection_id !! 23%nat = Some 45%N ∧
  connection_id !! 14%nat = Some 52%N ∧
  ∃ c, connection_id !! 19%nat = Some c ∧ c ∈ [56; 57; 97; 98]%N.
Proof.
  cbv zeta.
  pose proof (hex_lookup 32 (uuid4 rnd) 12 ltac:(lia)) as Hversion.
  pose proof (hex_lookup 32 (uuid4 rnd) 16 ltac:(lia)) as Hvariant.
  change (N.of_nat (32 - 1 - 12)) with 19%N in Hversion.
  change (N.of_nat (32 - 1 - 16)) with 15%N in Hvariant.
  rewrite uuid4_version in Hversion.
  destruct (uuid4_variant rnd) as (r & Hr & Hnibble). rewrite Hnibble in Hvariant.
  pose proof (hex_length 32 (uuid4 rnd)) as Hlen.
  unfold str_uuid. change (lit "-") with [45%N].
  destruct (hex 32 (uuid4 rnd)) as [|h0 h]; [discriminate Hlen|].
  do 31 (destruct h as [|? h]; [discriminate Hlen|]).
  destruct h; [|discriminate Hlen].
  cbn in Hversion, Hvariant |- *.
  injection Hversion as ->. injection Hvariant as ->.
  split_and!; try reflexivity.
  eexists. split; [reflexivity|].
  assert (r = 0 ∨ r = 1 ∨ r = 2 ∨ r = 3)%N as [->|[->|[->| ->]]] by lia;
    cbn; rewrite !elem_of_cons; auto.
Qed.

(** ** The further properties on concrete requests *)

Lemma speak_not_json_500 :
  step (Speak not_json) one_session =
    (one_session,
     error_500 (OtherError (lit "Expecting value: line 1 column 1 (char 0)"))).
Proof. exact (unreadable_body_500 (Speak not_json) _ one_session eq_refl). Defined.

Lemma disconnect_array_500 :
  step (Disconnect connect_array) one_session =
    (one_session, error_500 (no_attribute (JArr []) "get")).
Proof.
  apply (non_object_body_500 (Disconnect connect_array) (JArr []) one_session eq_refl).
  intros d. discriminate.
Defined.

Lemma speak_null_text_500 :
  handle_avatar_speak speak_null_text one_session =
    (one_session, error_500 (no_attribute JNull "strip")).
Proof.
  apply (speak_text_not_str_500 speak_null_text
           (items [("connection_id"%string, JStr session_id);
                   ("text"%string, JNull)])
           session_id JNull one_session one_session_reachable eq_refl).
  - reflexivity.
  - exact one_session_has_id.
  - reflexivity.
  - intros s. discriminate.
Defined.

Lemma list_id_500 :
  handle_avatar_speak speak_list_id one_session =
    (one_session, error_500 (unhashable (JArr [JInt 1]))) ∧
  handle_avatar_disconnect speak_list_id one_session =
    (one_session, error_500 (unhashable (JArr [JInt 1]))).
Proof.
  apply (unhashable_id_500 speak_list_id (JArr [JInt 1]) one_session).
  - reflexivity.
  - reflexivity.
  - left. by exists [JInt 1].
Defined.

Lemma disconnect_stranger_404 :
  handle_avatar_disconnect disconnect_stranger one_session =
    (one_session,
     json_response (JObj {[ lit "error" := JStr (lit "Connection not found") ]}) 404).
Proof.
  apply (disconnect_unknown_404 disconnect_stranger (JStr (lit "nobody")) one_session).
  - reflexivity.
  - right. reflexivity.
Defined.

Lemma speak_blank_changes_nothing :
  (served (Speak speak_blank) Cancelled_sleeping one_session).1 = one_session ∧
  ∃ msg,
    body (json_response
            (JObj {[ lit "error" := JStr (lit "No text provided") ]}) 400) =
      JObj {[ lit "error" := JStr msg ]}.
Proof.
  apply (failed_request_changes_nothing (Speak speak_blank) Cancelled_sleeping
           one_session).
  - reflexivity.
  - discriminate.
Defined.

Lemma speak_hello_succeeds :
  status (handle_avatar_speak speak_hello one_session).2 = 200 ↔
  ∃ k text,
    items [("connection_id"%string, JStr session_id);
           ("text"%string, JStr (lit "hello"))] !! lit "connection_id"
      = Some (JStr k) ∧
    is_Some (active_connections one_session !! k) ∧
    items [("connection_id"%string, JStr session_id);
           ("text"%string, JStr (lit "hello"))] !! lit "text"
      = Some (JStr text) ∧
    forallb isspace text = false.
Proof.
  exact (speak_succeeds_iff speak_hello _ one_session one_session_reachable eq_refl).
Defined.

Lemma speak_padded_echo :
  ∃ k text,
    items [("connection_id"%string, JStr session_id);
           ("text"%string, JStr (lit " hi "))] !! lit "connection_id"
      = Some (JStr k) ∧
    items [("connection_id"%string, JStr session_id);
           ("text"%string, JStr (lit " hi "))] !! lit "text"
      = Some (JStr text) ∧
    body (handle_avatar_speak speak_padded one_session).2 =
      JObj {[ lit "connection_id" := JStr k;
              lit "text" := JStr text;
              lit "voice" :=
                dict_get (items [("connection_id"%string, JStr session_id);
                                 ("text"%string, JStr (lit " hi "))])
                  "voice" (JStr (lit "en-US-AriaNeural"));
              lit "status" := JStr (lit "speaking") ]}.
Proof.
  exact (speak_echo speak_padded _ one_session eq_refl eq_refl).
Defined.

Lemma speak_hello_twice :
  handle_avatar_speak speak_hello (handle_avatar_speak speak_hello one_session).1 =
    handle_avatar_speak speak_hello one_session.
Proof. exact (speak_idempotent speak_hello one_session eq_refl). Defined.

Lemma connect_lisa_then_hello :
  status (handle_avatar_speak speak_hello
            (handle_avatar_connect connect_lisa 0 1704067200000000
               (AvatarService_init ∅)).1).2 = 200 ∧
  active_connections
    (handle_avatar_speak speak_hello
       (handle_avatar_connect connect_lisa 0 1704067200000000
          (AvatarService_init ∅)).1).1 !! str_uuid (uuid4 0) =
    Some (<[ lit "speaking" := PJson (JBool true) ]>
            (connection_info
               (resolved (items [("character"%string, JStr (lit "lisa"))])
                  "character" "lisa")
               (resolved (items [("character"%string, JStr (lit "lisa"))])
                  "style" "casual-sitting")
               (resolved (items [("character"%string, JStr (lit "lisa"))])
                  "background" "#FFFFFF")
               1704067200000000)).
Proof.
  exact (connect_then_speak connect_lisa speak_hello _ _ (lit "hello") 0
           1704067200000000 (AvatarService_init ∅)
           eq_refl eq_refl eq_refl eq_refl eq_refl).
Defined.

Lemma connect_lisa_again :
  (∀ k, k ≠ str_uuid (uuid4 0) →
        active_connections
          (handle_avatar_connect connect_lisa 0 1704067200000001 one_session).1 !! k
        = active_connections one_session !! k) ∧
  size (active_connections
          (handle_avatar_connect connect_lisa 0 1704067200000001 one_session).1) =
    match active_connections one_session !! str_uuid (uuid4 0) with
    | Some _ => size (active_connections one_session)
    | None => S (size (active_connections one_session))
    end.
Proof.
  exact (connect_frame connect_lisa _ 0 1704067200000001 one_session eq_refl).
Defined.

Lemma disconnect_session_frame :
  ∃ k,
    requested_id disconnect_session = inr (JStr k) ∧
    is_Some (active_connections one_session !! k) ∧
    active_connections (handle_avatar_disconnect disconnect_session one_session).1 =
      delete k (active_connections one_session) ∧
    S (size (active_connections
               (handle_avatar_disconnect disconnect_session one_session).1)) =
      size (active_connections one_session) ∧
    (∀ k', k' ≠ k →
       active_connections (handle_avatar_disconnect disconnect_session one_session).1
         !! k' = active_connections one_session !! k').
Proof. exact (disconnect_frame disconnect_session one_session eq_refl). Defined.

Lemma connect_lisa_undone :
  handle_avatar_disconnect disconnect_session
    (handle_avatar_connect connect_lisa 0 1704067200000000 (AvatarService_init ∅)).1 =
    (AvatarService_init ∅,
     json_response (JObj {[ lit "status" := JStr (lit "disconnected") ]}) 200).
Proof.
  exact (connect_disconnect_roundtrip connect_lisa disconnect_session _ 0
           1704067200000000 (AvatarService_init ∅) eq_refl eq_refl eq_refl).
Defined.

Lemma lisa_record_after_hello :
  <[ lit "speaking" := PJson (JBool true) ]> lisa_record = lisa_record ∨
  <[ lit "speaking" := PJson (JBool true) ]> lisa_record =
    <[ lit "speaking" := PJson (JBool true) ]> lisa_record.
Proof.
  apply (record_stable [Speak speak_hello] one_session session_id).
  - repeat constructor.
  - reflexivity.
  - reflexivity.
Defined.

Lemma lisa_record_typed : typed_record lisa_record.
Proof.
  apply (record_types one_session session_id lisa_record one_session_reachable).
  reflexivity.
Defined.

Lemma speech_token_refused :
  get_speech_token sdk_refuses sdk_token (AvatarService_init ∅) =
    inl (OtherError (lit "no credentials")) ∧
  handle_speech_token sdk_refuses sdk_token (post JNull) (AvatarService_init ∅) =
    (AvatarService_init ∅, error_500 (OtherError (lit "no credentials"))).
Proof.
  apply (speech_token_failure sdk_refuses sdk_token).
  left. reflexivity.
Defined.

Lemma ice_token_across_a_second :
  ∃ token_data claims exp iat,
    ice_token_data 0 1704067200999999 1704067201000000 = inr token_data ∧
    jwt_payload token_data = inr claims ∧
    claims !! lit "exp" = Some (JInt exp) ∧
    claims !! lit "iat" = Some (JInt iat) ∧
    (exp = iat + 3600 ∨ exp = iat + 3599).
Proof.
  apply (ice_token_window 0 1704067200999999 1704067201000000);
    unfold datetime_min, datetime_max, timedelta_hours; lia.
Defined.

Lemma speech_token_route_read_only :
  (H_speech_token = H_speech_token ∨ H_speech_token = H_ice_token) ∧
  (call sdk_config sdk_token sign_fixed H_speech_token (post JNull) new_year
     one_session).1 = one_session.
Proof.
  apply (get_routes_read_only sdk_config sdk_token sign_fixed []
           (lit "/api/avatar/speech-token")).
  - reflexivity.
  - reflexivity.
Defined.
